(** * aristo_bites: a shallow embedding of the orchestration code

    The repository sequences calls to hosted services.  The embedding keeps
    the repository's own control flow (validation, error containment, fan-in,
    polling, script splitting) and takes every hosted service as an explicit
    oracle, so that each statement below holds for every behaviour of the
    services.

    Layout: Part I holds the definitions, one module per source file;
    Part II holds the lemmas and theorems. *)

From Stdlib Require Import ZArith List String Ascii Lia Bool DecimalString.
From Stdlib Require Import QArith Qround.
Import ListNotations.
Open Scope string_scope.
Open Scope list_scope.
Open Scope Z_scope.

(* ################################################################# *)
(** * Part I: definitions *)

(* ================================================================= *)
(** ** Python values shared by all modules *)

Module Py.

(** Exception classes that occur in the sources.  Every class listed here
    derives from Python's [Exception], so an [except Exception] clause
    catches all of them. *)
Inductive exn_class : Type :=
| ValueError
| IndexError
| ZeroDivisionError
| EnvironmentError
| ValidationError
| Exception
| OtherError (name : string).

(** An exception instance; [exn_msg] is what [str(e)] returns. *)
Record exn : Type := mkExn { exn_cls : exn_class; exn_msg : string }.

Definition str_exn (e : exn) : string := exn_msg e.

(** The outcome of a call: a returned value or a raised exception. *)
Inductive result (A : Type) : Type :=
| Return (a : A)
| Raise (e : exn).
Arguments Return {A} a.
Arguments Raise {A} e.

(** [s ^^ t] is Python's [s + t] on [str]. *)
Infix "^^" := String.append (at level 60, right associativity).

(** The line feed character and the one-character string ["\n"]. *)
Definition LF : ascii := "010"%char.
Definition nl : string := String LF EmptyString.

(** [str(n)] for a Python [int]. *)
Definition str_int (n : Z) : string := NilZero.string_of_int (Z.to_int n).

(** [len(l)] as a Python [int]. *)
Definition len {A : Type} (l : list A) : Z := Z.of_nat (List.length l).

(** [sep.join(l)]. *)
Definition join (sep : string) (l : list string) : string :=
  String.concat sep l.

(** Truthiness of a [str]: only the empty string is falsy. *)
Definition truthy (s : string) : bool :=
  match s with
  | EmptyString => false
  | String _ _ => true
  end.

Definition is_validation_error (e : exn) : bool :=
  match exn_cls e with
  | ValidationError => true
  | _ => false
  end.

(** Effectful code: a computation runs in a state of type [S] and either
    returns or raises; the state changes made before a raise persist. *)
Definition M (S A : Type) : Type := S -> result A * S.

Definition ret {S A : Type} (a : A) : M S A := fun s => (Return a, s).

Definition raise {S A : Type} (e : exn) : M S A := fun s => (Raise e, s).

Definition bind {S A B : Type} (m : M S A) (k : A -> M S B) : M S B :=
  fun s =>
    match m s with
    | (Return a, s') => k a s'
    | (Raise e, s') => (Raise e, s')
    end.

(** [try: m except Exception as e: h e]. *)
Definition try_except {S A : Type} (m : M S A) (h : exn -> M S A) : M S A :=
  fun s =>
    match m s with
    | (Return a, s') => (Return a, s')
    | (Raise e, s') => h e s'
    end.

(** [try: m except cls as e: h e], where [catches e] tells whether [e] is
    an instance of [cls]; other exceptions propagate. *)
Definition try_except_when {S A : Type} (catches : exn -> bool)
    (m : M S A) (h : exn -> M S A) : M S A :=
  fun s =>
    match m s with
    | (Return a, s') => (Return a, s')
    | (Raise e, s') => if catches e then h e s' else (Raise e, s')
    end.

(** A pure call that may raise. *)
Definition lift {S A : Type} (x : result A) : M S A := fun s => (x, s).

Declare Scope py_scope.
Delimit Scope py_scope with py.
Notation "x <- m ;; k" := (bind m (fun x => k))
  (at level 61, m at next level, right associativity) : py_scope.
Notation "m ;;; k" := (bind m (fun _ => k))
  (at level 61, right associativity) : py_scope.

End Py.

Import Py.
Open Scope py_scope.

(* ================================================================= *)
(** ** agentic_rag.py *)

Module agentic_rag.

(** Pydantic models and workflow events. *)
Record SubQuestion : Type := mkSubQuestion { sq_question : string }.

Record SubQuestions : Type := mkSubQuestions { sqs_questions : list SubQuestion }.

Record SubQuestionsEvent : Type :=
  mkSubQuestionsEvent { questions : list SubQuestion }.

Record SubAnswerEvent : Type :=
  mkSubAnswerEvent { question : string; sub_answer : string }.

Record StopEvent : Type := mkStopEvent { stop_result : string }.

(** The two hosted services the workflow holds: the completion client
    ([beta.chat.completions.parse], given the system and the user message,
    answers with the parsed [SubQuestions] object or raises) and the managed
    index ([as_query_engine().query], answers with the response text or
    raises). *)
Record OpenAI : Type :=
  mkOpenAI { completions_parse : string -> string -> result SubQuestions }.

Record LlamaCloudIndex : Type :=
  mkLlamaCloudIndex { query_engine_query : string -> result string }.

Record RAGWorkflow : Type := mkRAGWorkflow {
  llama_cloud_index : LlamaCloudIndex;
  openai_client : OpenAI;
  num_questions : Z
}.

(** What one run can observe and change: the run context of the workflow
    framework (the buffer behind [collect_events] and the events handed to
    [send_event], oldest first) and the queries issued to the index. *)
Record Run : Type := mkRun {
  events_buffer : list SubAnswerEvent;
  sent_events : list SubQuestionsEvent;
  index_queries : list string
}.

Definition fresh_run : Run := mkRun [] [] [].

(** A step of the workflow runs in a run state. *)
Definition Step (A : Type) : Type := M Run A.

(** [ctx.send_event(ev)]. *)
Definition send_event (ev : SubQuestionsEvent) : Step unit :=
  fun r =>
    (Return tt,
     mkRun (events_buffer r) (sent_events r ++ [ev]) (index_queries r)).

(** One call of the index's query engine; the query is recorded. *)
Definition query_index (idx : LlamaCloudIndex) (q : string) : Step string :=
  fun r =>
    (query_engine_query idx q,
     mkRun (events_buffer r) (sent_events r) (index_queries r ++ [q])).

(** [for e_type in expected: pop the oldest buffered event, if any]. *)
Fixpoint pop_expected (expected : nat) (buf : list SubAnswerEvent)
  : list SubAnswerEvent * list SubAnswerEvent :=
  match expected with
  | O => ([], buf)
  | S n =>
      match buf with
      | [] => pop_expected n buf
      | e :: buf' =>
          let (retval, rest) := pop_expected n buf' in (e :: retval, rest)
      end
  end.

(** Modelled from the spec: [Context.collect_events] belongs to the workflow
    framework, which is not part of the repository.  Section 4.3 describes
    the fan-in it provides: answers are counted as they arrive, nothing is
    released while fewer than the expected number have arrived, and on the
    last one the collected events are released in arrival order.  The model
    buffers the incoming event, takes one buffered event per expected entry,
    oldest first, and puts them back when they are too few.  [expected] is
    the length of the list [[SubAnswerEvent] * num_questions]. *)
Definition collect_events (ev : SubAnswerEvent) (expected : nat)
  : Step (option (list SubAnswerEvent)) :=
  fun r =>
    let buf := events_buffer r ++ [ev] in
    let (retval, rest) := pop_expected expected buf in
    if Nat.eqb (List.length retval) expected
    then (Return (Some retval), mkRun rest (sent_events r) (index_queries r))
    else (Return None,
          mkRun (rest ++ retval) (sent_events r) (index_queries r)).

Definition system_message (n : Z) : string :=
  "You are an AI assistant that generates relevant philosophy based sub-questions to gather more information about a given topic. The questions should be distinct from one another and try to cover as much ground about the topic as possible. "
  ^^ "Generate exactly " ^^ str_int n ^^ " clear and specific questions.".

Definition user_message (n : Z) (query : string) : string :=
  "Generate " ^^ str_int n
  ^^ " sub-questions to gather more information about: " ^^ query.

(** [for question in sub_questions: ctx.send_event(...)]. *)
Fixpoint send_each (sub_questions : list string) : Step unit :=
  match sub_questions with
  | [] => ret tt
  | q :: qs =>
      send_event (mkSubQuestionsEvent [mkSubQuestion q]) ;;; send_each qs
  end.

Definition count_mismatch (expected got : Z) : exn :=
  mkExn ValueError
    ("Expected " ^^ str_int expected ^^ " sub-questions, but got "
     ^^ str_int got).

Definition generate_sub_questions (self : RAGWorkflow) (query : string)
  : Step SubQuestionsEvent :=
  parsed_response <-
    lift (completions_parse (openai_client self)
            (system_message (num_questions self))
            (user_message (num_questions self) query)) ;;
  let sub_questions := map sq_question (sqs_questions parsed_response) in
  if negb (len sub_questions =? num_questions self)
  then raise (count_mismatch (num_questions self) (len sub_questions))
  else
    send_each sub_questions ;;;
    ret (mkSubQuestionsEvent (map mkSubQuestion sub_questions)).

(** The question strings carried by a list of sub-question events. *)
Definition emitted (evs : list SubQuestionsEvent) : list string :=
  flat_map (fun ev => map sq_question (questions ev)) evs.

(** [ev.questions[0].question]; an empty list raises [IndexError]. *)
Definition first_question (ev : SubQuestionsEvent) : Step string :=
  match questions ev with
  | [] => raise (mkExn IndexError "list index out of range")
  | q :: _ => ret (sq_question q)
  end.

Definition query_llama_cloud (self : RAGWorkflow) (ev : SubQuestionsEvent)
  : Step SubAnswerEvent :=
  query <- first_question ev ;;
  if negb (truthy query)
  then ret (mkSubAnswerEvent "Unknown Question" "Error: Empty query")
  else
    try_except
      (response <- query_index (llama_cloud_index self) query ;;
       ret (mkSubAnswerEvent query response))
      (fun e =>
         ret (mkSubAnswerEvent query
                ("Error querying LlamaCloud: " ^^ str_exn e))).

(** [f"Q: {event.question}\nA: {event.sub_answer}"]. *)
Definition format_event (event : SubAnswerEvent) : string :=
  "Q: " ^^ question event ^^ nl ^^ "A: " ^^ sub_answer event.

Definition combined_answer (result : list SubAnswerEvent) : string :=
  join (nl ^^ nl) (map format_event result).

Definition combine_answers (self : RAGWorkflow) (ev : SubAnswerEvent)
  : Step (option StopEvent) :=
  result <- collect_events ev (Z.to_nat (num_questions self)) ;;
  match result with
  | None => ret None
  | Some result => ret (Some (mkStopEvent (combined_answer result)))
  end.

(** The aggregator driven by a sequence of arrivals: every arriving answer
    event is handed to [combine_answers]; the outputs are listed in arrival
    order, a raise ends the sequence. *)
Fixpoint deliver (self : RAGWorkflow) (arrivals : list SubAnswerEvent)
  : Step (list (option StopEvent)) :=
  match arrivals with
  | [] => ret []
  | ev :: rest =>
      out <- combine_answers self ev ;;
      outs <- deliver self rest ;;
      ret (out :: outs)
  end.

(** The environment of [process_query]: the API key, the two client
    constructors and the framework's [workflow.run]. *)
Record Env : Type := mkEnv {
  getenv_LLAMAINDEX_API_KEY : option string;
  new_LlamaCloudIndex : string -> result LlamaCloudIndex;
  new_OpenAI : result OpenAI;
  workflow_run : RAGWorkflow -> string -> result string
}.

Definition missing_api_key : exn :=
  mkExn EnvironmentError
    "LLAMAINDEX_API_KEY environment variable is not set.".

Definition process_query (env : Env) (user_query : string)
    (num_subquestions : Z) : result string :=
  match getenv_LLAMAINDEX_API_KEY env with
  | None => Raise missing_api_key
  | Some api_key =>
      if negb (truthy api_key) then Raise missing_api_key
      else
        match new_LlamaCloudIndex env api_key with
        | Raise e => Raise e
        | Return index =>
            match new_OpenAI env with
            | Raise e => Raise e
            | Return client =>
                let workflow := mkRAGWorkflow index client num_subquestions in
                match workflow_run env workflow user_query with
                | Return combined_result => Return combined_result
                | Raise e =>
                    Return ("An error occurred during processing: "
                            ^^ str_exn e)
                end
            end
        end
  end.

End agentic_rag.

(* ================================================================= *)
(** ** img_to_video.py *)

Module img_to_video.

Definition MAX_ATTEMPTS : Z := 30.
Definition POLL_INTERVAL : Z := 5.

(** What the generation service answers to [create] and [get]: the job id,
    its state, the failure reason (unset unless the job failed) and the
    video asset (unset until the job completed). *)
Record Generation : Type := mkGeneration {
  id : string;
  state : string;
  failure_reason : option string;
  assets_video : option string
}.

Record CreateRequest : Type := mkCreateRequest {
  req_prompt : option string;
  req_frame0_url : option string;
  req_aspect_ratio : string
}.

(** The calls made so far and the time spent sleeping, in seconds. *)
Record World : Type := mkWorld {
  creates : nat;
  gets : nat;
  slept : Z
}.

Definition start_world : World := mkWorld 0 0 0.

(** The hosted client.  An answer may depend on how many calls of the same
    kind were made before, which is how a job moves from state to state
    between two polls. *)
Record AsyncLumaAI : Type := mkAsyncLumaAI {
  generations_create : nat -> CreateRequest -> result Generation;
  generations_get : nat -> string -> result Generation
}.

Definition create (client : AsyncLumaAI) (req : CreateRequest)
  : M World Generation :=
  fun w =>
    (generations_create client (creates w) req,
     mkWorld (S (creates w)) (gets w) (slept w)).

Definition get (client : AsyncLumaAI) (generation_id : string)
  : M World Generation :=
  fun w =>
    (generations_get client (gets w) generation_id,
     mkWorld (creates w) (S (gets w)) (slept w)).

(** [await asyncio.sleep(delay)]. *)
Definition sleep (delay : Z) : M World unit :=
  fun w => (Return tt, mkWorld (creates w) (gets w) (slept w + delay)).

(** [f"{x}"] for an optional string. *)
Definition str_opt (x : option string) : string :=
  match x with
  | Some s => s
  | None => "None"
  end.

(** The body of [for attempt in range(max_attempts)], followed by the code
    after the loop when the range is exhausted. *)
Fixpoint poll_loop (client : AsyncLumaAI) (generation_id : string)
    (delay : Z) (attempts : nat) : M World unit :=
  match attempts with
  | O => raise (mkExn Exception "Max attempts reached")
  | S rest =>
      fun w =>
        match get client generation_id w with
        | (Raise _, w') =>
            (sleep delay ;;; poll_loop client generation_id delay rest) w'
        | (Return status, w') =>
            (if String.eqb (state status) "completed" then ret tt
             else if String.eqb (state status) "failed" then
               raise (mkExn Exception
                        ("Generation failed: "
                         ^^ str_opt (failure_reason status)))
             else
               sleep delay ;;; poll_loop client generation_id delay rest) w'
        end
  end.

(** An answer that keeps the loop going: the request raised, or the job is
    in a state other than ["completed"] and ["failed"]. *)
Definition keeps_polling (answer : result Generation) : bool :=
  match answer with
  | Raise _ => true
  | Return status =>
      negb (String.eqb (state status) "completed")
      && negb (String.eqb (state status) "failed")
  end.

Definition poll_generation (client : AsyncLumaAI) (generation_id : string)
    (max_attempts delay : Z) : M World unit :=
  poll_loop client generation_id delay (Z.to_nat max_attempts).

(** [final_status.assets.video]. *)
Definition assets_of (final_status : Generation) : M World string :=
  match assets_video final_status with
  | Some v => ret v
  | None =>
      raise (mkExn (OtherError "AttributeError")
               "'NoneType' object has no attribute 'video'")
  end.

(** The decorated function's body: one attempt. *)
Definition generate_luma_video_once (client : AsyncLumaAI)
    (prompt start_image_url : option string) (aspect_ratio : string)
  : M World string :=
  generation <-
    create client
      (mkCreateRequest prompt
         (match start_image_url with
          | Some url => if truthy url then Some url else None
          | None => None
          end)
         aspect_ratio) ;;
  poll_generation client (id generation) MAX_ATTEMPTS POLL_INTERVAL ;;;
  final_status <- get client (id generation) ;;
  if String.eqb (state final_status) "completed"
  then assets_of final_status
  else raise (mkExn Exception
                ("Generation failed with state: " ^^ state final_status)).

(** [@retry(stop=stop_after_attempt(n), wait=wait_fixed(w),
    retry=retry_if_exception_type(Exception))]: the body is run again after
    a wait while it raises; when the last attempt raises too, the decorator
    raises its own [RetryError]. *)
Fixpoint retry {A : Type} (attempts : nat) (wait : Z) (body : M World A)
  : M World A :=
  match attempts with
  | O => raise (mkExn (OtherError "RetryError") "RetryError")
  | S rest =>
      try_except body
        (fun _ =>
           match rest with
           | O => raise (mkExn (OtherError "RetryError") "RetryError")
           | S _ => sleep wait ;;; retry rest wait body
           end)
  end.

Definition generate_luma_video (client : AsyncLumaAI)
    (prompt start_image_url : option string) (aspect_ratio : string)
  : M World string :=
  retry 5 2 (generate_luma_video_once client prompt start_image_url
               aspect_ratio).

(** The exception of the loop for a job reported as failed. *)
Definition generation_failed (status : Generation) : exn :=
  mkExn Exception ("Generation failed: " ^^ str_opt (failure_reason status)).






End img_to_video.

(* ================================================================= *)
(** ** structured_output_model.py *)

Module structured_output_model.

Record SceneDescription : Type := mkSceneDescription {
  image_description : string;
  video_description : string
}.

Record ScriptAnalysis : Type := mkScriptAnalysis {
  scenes : list SceneDescription
}.

(** [str.isspace] on the characters below code point 256. *)
Definition isspace (c : ascii) : bool :=
  let n := nat_of_ascii c in
  ((9 <=? n) && (n <=? 13) || (28 <=? n) && (n <=? 32)
   || (n =? 133) || (n =? 160))%nat.

(** [str.split()] without arguments: the maximal runs of characters that
    are not whitespace, in order.  [word] is the run being read. *)
Fixpoint split_from (word : string) (s : string) : list string :=
  match s with
  | EmptyString =>
      match word with
      | EmptyString => []
      | String _ _ => [word]
      end
  | String c rest =>
      if isspace c then
        match word with
        | EmptyString => split_from EmptyString rest
        | String _ _ => word :: split_from EmptyString rest
        end
      else split_from (word ^^ String c EmptyString) rest
  end.

Definition split (s : string) : list string := split_from EmptyString s.

(** No whitespace in [s]. *)
Fixpoint no_space (s : string) : bool :=
  match s with
  | EmptyString => true
  | String c rest => negb (isspace c) && no_space rest
  end.

(** What [split] yields: non-empty runs without whitespace. *)
Definition is_word (s : string) : Prop :=
  s <> EmptyString /\ no_space s = true.

(** A slice bound as Python clamps it for a list of length [n]. *)
Definition clamp (n i : Z) : Z :=
  if i <? 0 then Z.max (i + n) 0 else Z.min i n.

(** [l[start:stop]]. *)
Definition slice {A : Type} (l : list A) (start stop : Z) : list A :=
  let lo := clamp (len l) start in
  let hi := clamp (len l) stop in
  firstn (Z.to_nat (hi - lo)) (skipn (Z.to_nat lo) l).

(** [range(n)]. *)
Definition range (n : Z) : list Z := map Z.of_nat (seq 0 (Z.to_nat n)).

Definition split_script (script : string) (num_parts : Z)
  : result (list string) :=
  let words := split script in
  let num_words := len words in
  if num_parts =? 0
  then Raise (mkExn ZeroDivisionError "integer division or modulo by zero")
  else
    let words_per_part := num_words / num_parts in
    Return
      (map (fun i =>
              let start_index := i * words_per_part in
              let end_index :=
                if negb (i =? num_parts - 1)
                then start_index + words_per_part
                else num_words in
              join " " (slice words start_index end_index))
         (range num_parts)).

(** The completion client: given the calls made before and the two
    messages, it answers with the parsed scene (unset on a refusal) or
    raises. *)
Record OpenAI : Type := mkOpenAI {
  completions_parse :
    nat -> string -> string -> result (option SceneDescription)
}.

Definition indent4 : string := "    ".
Definition indent8 : string := "        ".

Definition system_message : string :=
  nl ^^ indent4
  ^^ "You are an AI assistant specialized in analyzing scripts and extracting descriptions for images and videos."
  ^^ nl ^^ indent4.

Definition user_message (idx : Z) (part : string) : string :=
  nl ^^ indent8
  ^^ "Analyze the following part of a script and provide an image and a video description that corresponds sequentially to the content. The image description should be 1-2 sentences (about 15 words). The video description should describe a suitable action for the image description."
  ^^ nl ^^ indent8
  ^^ "Make sure the image and video description do not violate any ethical standards (even if the script content does so)."
  ^^ nl ^^ nl ^^ indent8
  ^^ "Part " ^^ str_int (idx + 1) ^^ " of the script:"
  ^^ nl ^^ nl ^^ indent8 ^^ part ^^ nl ^^ indent8.

(** [for idx, part in enumerate(script_parts)]: one completion per part;
    the state counts the completions requested. *)
Fixpoint describe_parts (client : OpenAI) (idx : Z) (script_parts : list string)
  : M nat (list (option SceneDescription)) :=
  match script_parts with
  | [] => ret []
  | part :: rest =>
      scene_description <-
        (fun calls =>
           (completions_parse client calls system_message
              (user_message idx part), S calls)) ;;
      more <- describe_parts client (idx + 1) rest ;;
      ret (scene_description :: more)
  end.

(** [ScriptAnalysis(scenes=scenes)]: the model validates its field, an
    unset entry is rejected with a [ValidationError]. *)
Fixpoint validated (scenes : list (option SceneDescription))
  : result (list SceneDescription) :=
  match scenes with
  | [] => Return []
  | None :: _ =>
      Raise (mkExn ValidationError "1 validation error for ScriptAnalysis")
  | Some s :: rest =>
      match validated rest with
      | Return l => Return (s :: l)
      | Raise e => Raise e
      end
  end.

Definition new_ScriptAnalysis (scenes : list (option SceneDescription))
  : result ScriptAnalysis :=
  match validated scenes with
  | Return l => Return (mkScriptAnalysis l)
  | Raise e => Raise e
  end.

Definition extract_descriptions (client : OpenAI) (script : string)
    (num_images : Z) : M nat ScriptAnalysis :=
  script_parts <- lift (split_script script num_images) ;;
  scenes <- describe_parts client 0 script_parts ;;
  lift (new_ScriptAnalysis scenes).

End structured_output_model.

(* ================================================================= *)
(** ** process_video.py *)

Module process_video.

Import structured_output_model.

(** The outward actions of the pipeline, as they are logged. *)
Inductive Action : Type :=
| Synthesize (script : string)
| HttpGet (url : string)
| WriteFile (path : string)
| Ffprobe (path : string)
| GenerateImage (prompt : string)
| GenerateLumaVideo (prompt start_image_url : option string)
    (aspect_ratio : string)
| CombineVideos (video_paths : list string) (output_path : string)
| AddAudio (video_path audio_path output_path : string)
| Uuid4.

(** The log of actions, oldest first, and the number of completions
    requested from the script analysis client. *)
Record World : Type := mkWorld {
  log : list Action;
  completions : nat
}.

(** The collaborators of the pipeline.  Each answer may depend on the
    actions logged before the call.  [generate_image], [generate_luma_video]
    and the speech model are the imported wrappers; [http_get] answers with
    the response status; [ffprobe_duration] is the probed duration read as a
    number. *)
Record Services : Type := mkServices {
  new_ElevenLabsTTSModel : result unit;
  generate_and_save_audio : list Action -> string -> result string;
  http_get : list Action -> string -> result Z;
  ffprobe_duration : list Action -> string -> result Q;
  generate_image : list Action -> string -> result string;
  generate_luma_video :
    list Action -> option string -> option string -> string -> result string;
  ffmpeg_concat : list Action -> list string -> string -> result unit;
  ffmpeg_add_audio : list Action -> string -> string -> string -> result unit;
  uuid4 : list Action -> string
}.

(** One logged call. *)
Definition call {A : Type} (a : Action) (answer : list Action -> result A)
  : M World A :=
  fun w => (answer (log w), mkWorld (log w ++ [a]) (completions w)).

(** Code that only requests completions, run inside the pipeline. *)
Definition with_completions {A : Type} (m : M nat A) : M World A :=
  fun w =>
    let (r, n) := m (completions w) in (r, mkWorld (log w) n).

Definition fresh_uuid (svc : Services) : M World string :=
  call Uuid4 (fun h => Return (uuid4 svc h)).

Definition download_file (svc : Services) (url dest_path : string)
  : M World unit :=
  status <- call (HttpGet url) (fun h => http_get svc h url) ;;
  if negb (status =? 200)
  then raise (mkExn Exception
                ("Failed to download file from " ^^ url
                 ^^ ", status code " ^^ str_int status))
  else call (WriteFile dest_path) (fun _ => Return tt).

Definition get_audio_duration (svc : Services) (file_path : string)
  : M World Q :=
  call (Ffprobe file_path) (fun h => ffprobe_duration svc h file_path).

Definition combine_videos (svc : Services) (video_paths : list string)
    (output_path : string) : M World unit :=
  call (CombineVideos video_paths output_path)
    (fun h => ffmpeg_concat svc h video_paths output_path).

Definition add_audio_to_video (svc : Services)
    (video_path audio_path output_path : string) : M World unit :=
  call (AddAudio video_path audio_path output_path)
    (fun h => ffmpeg_add_audio svc h video_path audio_path output_path).

(** [math.ceil(audio_duration / 5)], the duration taken as a rational. *)
Definition expected_scenes (audio_duration : Q) : Z :=
  Qceiling (audio_duration / inject_Z 5).

Definition scene_count_mismatch (got expected : Z) : exn :=
  mkExn Exception
    ("Number of scenes (" ^^ str_int got
     ^^ ") does not match the expected number of images ("
     ^^ str_int expected ^^ ")").

(** [for i, scene in enumerate(script_analysis.scenes)]. *)
Fixpoint process_scenes (svc : Services) (scenes : list SceneDescription)
  : M World (list string) :=
  match scenes with
  | [] => ret []
  | scene :: rest =>
      image_url <-
        call (GenerateImage (image_description scene))
          (fun h => generate_image svc h (image_description scene)) ;;
      u <- fresh_uuid svc ;;
      let image_file_path := "data/images/temp_image_" ^^ u ^^ ".png" in
      download_file svc image_url image_file_path ;;;
      u' <- fresh_uuid svc ;;
      let video_file_path := "data/videos/temp_video_" ^^ u' ^^ ".mp4" in
      video_url <-
        call (GenerateLumaVideo (Some (video_description scene))
                (Some image_url) "16:9")
          (fun h =>
             generate_luma_video svc h (Some (video_description scene))
               (Some image_url) "16:9") ;;
      download_file svc video_url video_file_path ;;;
      video_paths <- process_scenes svc rest ;;
      ret (video_file_path :: video_paths)
  end.

(** [process_main_video], with the script analysis it calls as an argument:
    the name [extract_descriptions] is looked up when the call is made, so a
    run can meet any analysis that requests completions and returns or
    raises. *)
Definition process_main_video_with (svc : Services)
    (analyse : string -> Z -> M nat ScriptAnalysis) (script : string)
  : M World string :=
  lift (new_ElevenLabsTTSModel svc) ;;;
  audio_url <-
    call (Synthesize script) (fun h => generate_and_save_audio svc h script) ;;
  u <- fresh_uuid svc ;;
  let audio_file_path := "data/videos/temp_audio_" ^^ u ^^ ".mp3" in
  download_file svc audio_url audio_file_path ;;;
  audio_duration <- get_audio_duration svc audio_file_path ;;
  let num_images := expected_scenes audio_duration in
  script_analysis <-
    try_except_when is_validation_error
      (with_completions (analyse script num_images))
      (fun ve =>
         raise (mkExn Exception ("Script analysis failed: " ^^ str_exn ve))) ;;
  if negb (len (scenes script_analysis) =? num_images)
  then raise (scene_count_mismatch (len (scenes script_analysis)) num_images)
  else
    video_paths <- process_scenes svc (scenes script_analysis) ;;
    u1 <- fresh_uuid svc ;;
    let combined_video_path := "data/videos/combined_" ^^ u1 ^^ ".mp4" in
    combine_videos svc video_paths combined_video_path ;;;
    u2 <- fresh_uuid svc ;;
    let final_video_path := "data/final_video/final_" ^^ u2 ^^ ".mp4" in
    add_audio_to_video svc combined_video_path audio_file_path
      final_video_path ;;;
    ret final_video_path.

Definition process_main_video (svc : Services) (client : OpenAI)
    (script : string) : M World string :=
  process_main_video_with svc (extract_descriptions client) script.

(** The final videos written so far: the outputs of the audio muxing. *)
Fixpoint final_videos (l : list Action) : list string :=
  match l with
  | [] => []
  | AddAudio _ _ output_path :: rest => output_path :: final_videos rest
  | _ :: rest => final_videos rest
  end.

(** The images and the clips requested so far. *)
Fixpoint images_requested (l : list Action) : nat :=
  match l with
  | [] => 0
  | GenerateImage _ :: rest => S (images_requested rest)
  | _ :: rest => images_requested rest
  end.

Fixpoint clips_requested (l : list Action) : nat :=
  match l with
  | [] => 0
  | GenerateLumaVideo _ _ _ :: rest => S (clips_requested rest)
  | _ :: rest => clips_requested rest
  end.

(** Collaborators that answer every call: the speech model is built, every
    download answers 200 and every generation and media tool call returns. *)
Definition reliable (svc : Services) : Prop :=
  new_ElevenLabsTTSModel svc = Return tt
  /\ (forall h s, exists u, generate_and_save_audio svc h s = Return u)
  /\ (forall h u, http_get svc h u = Return 200)
  /\ (forall h p, exists u, generate_image svc h p = Return u)
  /\ (forall h a b c, exists u, generate_luma_video svc h a b c = Return u)
  /\ (forall h l o, ffmpeg_concat svc h l o = Return tt)
  /\ (forall h a b c, ffmpeg_add_audio svc h a b c = Return tt).

End process_video.

(* ================================================================= *)
(** ** A reader for the combined text *)

Module qa_reader.

Import agentic_rag.

(** [strip_prefix p s] is the rest of [s] after its prefix [p]. *)
Fixpoint strip_prefix (p s : string) : option string :=
  match p with
  | EmptyString => Some s
  | String a p' =>
      match s with
      | EmptyString => None
      | String b s' => if Ascii.eqb a b then strip_prefix p' s' else None
      end
  end.

(** [cut sep s] splits [s] around the first occurrence of [sep]. *)
Fixpoint cut (sep s : string) : option (string * string) :=
  match strip_prefix sep s with
  | Some rest => Some (EmptyString, rest)
  | None =>
      match s with
      | EmptyString => None
      | String c s' =>
          match cut sep s' with
          | Some (before, rest) => Some (String c before, rest)
          | None => None
          end
      end
  end.

(** The pieces of [s] between the occurrences of [sep], found from left to
    right.  Every cut shortens the rest, so [fuel] = the length of the text
    is enough. *)
Fixpoint split_fuel (fuel : nat) (sep s : string) : list string :=
  match cut sep s with
  | None => [s]
  | Some (before, rest) =>
      match fuel with
      | O => [s]
      | S fuel' => before :: split_fuel fuel' sep rest
      end
  end.

Definition split_on (sep s : string) : list string :=
  split_fuel (String.length s) sep s.

(** One block ["Q: <question>\nA: <answer>"]. *)
Definition read_block (block : string) : option (string * string) :=
  match strip_prefix "Q: " block with
  | None => None
  | Some body => cut (nl ^^ "A: ") body
  end.

Fixpoint read_blocks (blocks : list string) : option (list (string * string)) :=
  match blocks with
  | [] => Some []
  | block :: rest =>
      match read_block block, read_blocks rest with
      | Some qa, Some qas => Some (qa :: qas)
      | _, _ => None
      end
  end.

(** Modelled from the spec: the repository has no reader for the combined
    text; section 8 describes one that splits on the ["Q:"]/["A:"] markers.
    The text is cut at every blank-line separator, each block must open with
    the question marker, and the first answer marker of a block ends its
    question.  The empty text holds no pair. *)
Definition read_combined (text : string) : option (list (string * string)) :=
  match text with
  | EmptyString => Some []
  | String _ _ => read_blocks (split_on (nl ^^ nl) text)
  end.

Definition pair_of (ev : SubAnswerEvent) : string * string :=
  (question ev, sub_answer ev).

(** No line feed in [s]. *)
Fixpoint single_line (s : string) : bool :=
  match s with
  | EmptyString => true
  | String c s' => negb (Ascii.eqb c LF) && single_line s'
  end.

(** Two line feeds in a row somewhere in [s]. *)
Fixpoint has_blank_line (s : string) : bool :=
  match s with
  | EmptyString => false
  | String c s' =>
      match s' with
      | EmptyString => false
      | String d _ => (Ascii.eqb c LF && Ascii.eqb d LF) || has_blank_line s'
      end
  end.

(** [s] ends with a line feed. *)
Fixpoint ends_with_LF (s : string) : bool :=
  match s with
  | EmptyString => false
  | String c s' =>
      match s' with
      | EmptyString => Ascii.eqb c LF
      | String _ _ => ends_with_LF s'
      end
  end.

Definition starts_with_LF (s : string) : bool :=
  match s with
  | EmptyString => false
  | String c _ => Ascii.eqb c LF
  end.

(** A block that the separator cannot be confused with. *)
Definition clean (b : string) : Prop :=
  has_blank_line b = false /\ ends_with_LF b = false.

(** The pairs the reader is shown to recover: a question on one line and an
    answer without a blank line that does not end with a line feed. *)
Definition readable (ev : SubAnswerEvent) : Prop :=
  single_line (question ev) = true
  /\ has_blank_line (sub_answer ev) = false
  /\ ends_with_LF (sub_answer ev) = false.

End qa_reader.

(* ================================================================= *)
(** ** transcription.py *)

Module transcription.

Import qa_reader.

Fixpoint zeros (k : nat) : string :=
  match k with
  | O => EmptyString
  | S k' => String "0" (zeros k')
  end.

(** [f"{n:0<width>d}"]: the decimal digits padded with zeros on the left up
    to [width] characters, the sign included. *)
Definition format_d (width : nat) (n : Z) : string :=
  if n <? 0 then
    let digits := str_int (- n) in
    "-" ^^ zeros (width - 1 - String.length digits) ^^ digits
  else
    let digits := str_int n in
    zeros (width - String.length digits) ^^ digits.

(** The four fields of a timestamp, from the whole number of milliseconds. *)
Definition hours_of (total_milliseconds : Z) : Z :=
  total_milliseconds / (3600 * 1000).

Definition minutes_of (total_milliseconds : Z) : Z :=
  (total_milliseconds mod (3600 * 1000)) / (60 * 1000).

Definition secs_of (total_milliseconds : Z) : Z :=
  (total_milliseconds mod (60 * 1000)) / 1000.

Definition milliseconds_of (total_milliseconds : Z) : Z :=
  total_milliseconds mod 1000.

(** [str.strip()]: whitespace removed at both ends. *)
Fixpoint lstrip (s : string) : string :=
  match s with
  | EmptyString => EmptyString
  | String c rest =>
      if structured_output_model.isspace c then lstrip rest else s
  end.

Fixpoint rstrip (s : string) : string :=
  match s with
  | EmptyString => EmptyString
  | String c rest =>
      match rstrip rest with
      | EmptyString =>
          if structured_output_model.isspace c then EmptyString
          else String c EmptyString
      | String _ _ as kept => String c kept
      end
  end.

Definition strip (s : string) : string := rstrip (lstrip s).

(** [s.replace(old, new)] for a non-empty [old]: every occurrence found
    from left to right is replaced.  Every replacement shortens the rest, so
    [fuel] = the length of the text is enough. *)
Fixpoint replace_fuel (fuel : nat) (old new s : string) : string :=
  match cut old s with
  | None => s
  | Some (before, rest) =>
      match fuel with
      | O => s
      | S fuel' => before ^^ new ^^ replace_fuel fuel' old new rest
      end
  end.

Definition replace (old new s : string) : string :=
  replace_fuel (String.length s) old new s.

Section Timestamps.

(** Seconds are floating-point numbers.  The one operation the code applies
    to them, [int(seconds * 1000)], is taken as given. *)
Variable float : Type.
Variable int_times_1000 : float -> Z.

Definition format_timestamp (seconds : float) : string :=
  let total_milliseconds := int_times_1000 seconds in
  let hours := hours_of total_milliseconds in
  let minutes := minutes_of total_milliseconds in
  let secs := secs_of total_milliseconds in
  let milliseconds := milliseconds_of total_milliseconds in
  format_d 2 hours ^^ ":" ^^ format_d 2 minutes ^^ ":" ^^ format_d 2 secs
  ^^ "," ^^ format_d 3 milliseconds.

(** One segment of a transcription result. *)
Record Segment : Type := mkSegment {
  seg_start : float;
  seg_end : float;
  seg_text : string
}.

(** What [write_srt] writes for the segments from index [i] on. *)
Fixpoint srt_blocks (i : Z) (segments : list Segment) : string :=
  match segments with
  | [] => EmptyString
  | segment :: rest =>
      (str_int (i + 1) ^^ nl)
      ^^ (format_timestamp (seg_start segment) ^^ " --> "
          ^^ format_timestamp (seg_end segment) ^^ nl)
      ^^ (strip (seg_text segment) ^^ nl ^^ nl)
      ^^ srt_blocks (i + 1) rest
  end.

(** The content of the file written by [write_srt]. *)
Definition write_srt (segments : list Segment) : string :=
  srt_blocks 0 segments.

(** The outward actions of [generate_transcription]. *)
Inductive Action : Type :=
| WriteAudio (video_path audio_path : string)
| Transcribe (audio_path : string)
| WriteSrt (srt_path content : string)
| BurnSubtitles (video_path srt_path output_video : string)
| Remove (path : string).

(** The collaborators: the audio extraction, the speech model, the file
    system and the media tool.  Each answer may depend on the actions logged
    before.  The exit status of the media tool is what [subprocess.run]
    returns when it is not asked to check it. *)
Record Services : Type := mkServices {
  write_audiofile : list Action -> string -> string -> result unit;
  transcribe : list Action -> string -> result (list Segment);
  write_file : list Action -> string -> string -> result unit;
  ffmpeg_subtitles : list Action -> string -> string -> string -> result Z;
  os_remove : list Action -> string -> result unit
}.

Definition call {A : Type} (a : Action) (answer : list Action -> result A)
  : M (list Action) A :=
  fun h => (answer h, h ++ [a]).

Definition generate_transcription (svc : Services) (video_path : string)
  : M (list Action) string :=
  let audio_path := replace ".mp4" "_audio.wav" video_path in
  call (WriteAudio video_path audio_path)
    (fun h => write_audiofile svc h video_path audio_path) ;;;
  segments <- call (Transcribe audio_path) (fun h => transcribe svc h audio_path) ;;
  let srt_path := replace ".mp4" ".srt" video_path in
  call (WriteSrt srt_path (write_srt segments))
    (fun h => write_file svc h srt_path (write_srt segments)) ;;;
  let output_video := replace ".mp4" "_with_subtitles.mp4" video_path in
  call (BurnSubtitles video_path srt_path output_video)
    (fun h => ffmpeg_subtitles svc h video_path srt_path output_video) ;;;
  call (Remove audio_path) (fun h => os_remove svc h audio_path) ;;;
  call (Remove srt_path) (fun h => os_remove svc h srt_path) ;;;
  ret output_video.

End Timestamps.

(** The number written by a string of decimal digits, read after [acc]. *)
Fixpoint digits_value (acc : Z) (s : string) : Z :=
  match s with
  | EmptyString => acc
  | String c rest =>
      digits_value (acc * 10 + (Z.of_nat (nat_of_ascii c) - 48)) rest
  end.

(** No full stop in [s]. *)
Fixpoint no_dot (s : string) : bool :=
  match s with
  | EmptyString => true
  | String c rest => negb (Ascii.eqb c ".") && no_dot rest
  end.

End transcription.

(* ================================================================= *)
(** ** text_to_image.py and talking_head.py *)

Module replicate_calls.

(** The model runs requested so far and the seconds spent waiting. *)
Record World : Type := mkWorld {
  runs : nat;
  waited : Z
}.

Definition sleep (delay : Z) : M World unit :=
  fun w => (Return tt, mkWorld (runs w) (waited w + delay)).

(** [@retry(stop=stop_after_attempt(n), wait=wait_fixed(w),
    retry=retry_if_exception_type(Exception), reraise=True)]: the body is
    run again after a wait while it raises; when the last attempt raises
    too, its exception is raised as it is. *)
Fixpoint retry_reraise {A : Type} (attempts : nat) (wait : Z)
    (body : M World A) : M World A :=
  match attempts with
  | O => raise (mkExn (OtherError "RetryError") "RetryError")
  | S rest =>
      try_except body
        (fun e =>
           match rest with
           | O => raise e
           | S _ => sleep wait ;;; retry_reraise rest wait body
           end)
  end.

(** One [replicate.run]; the answer may depend on the runs made before. *)
Definition run {I O : Type} (answer : nat -> I -> result O) (input : I)
  : M World O :=
  fun w => (answer (runs w) input, mkWorld (S (runs w)) (waited w)).

Definition image_failure : exn :=
  mkExn Exception "Failed to generate image using Replicate.".

Definition video_failure : exn :=
  mkExn Exception "Failed to generate video using Replicate.".

Definition no_output : exn :=
  mkExn Exception "No output received from Replicate.".

(** The body of [generate_image]: one attempt. *)
Definition generate_image_once
    (answer : nat -> string -> result (list string)) (prompt : string)
  : M World string :=
  try_except
    (output <- run answer prompt ;;
     match output with
     | [] => raise no_output
     | image_url :: _ => ret image_url
     end)
    (fun _ => raise image_failure).

Definition generate_image
    (answer : nat -> string -> result (list string)) (prompt : string)
  : M World string :=
  retry_reraise 3 1 (generate_image_once answer prompt).

(** The input of the lip-sync model; the duration is passed on as it is. *)
Record RetalkingInput (D : Type) : Type := mkRetalkingInput {
  face : string;
  input_audio : string;
  audio_duration : D
}.
Arguments mkRetalkingInput {D} face input_audio audio_duration.

Definition face_url : string :=
  "https://storage.cdn-luma.com/lit_lite_inference_v1.6-xl/dbe81771-52bc-40e7-b227-523f22d10b58/bbcbe7c8-e0e4-4938-832a-d17a6b1bd9fb_video0d12435cb38724cfaba3e01cbc071e934.mp4".

(** The body of [talking_head]: one attempt. *)
Definition talking_head_once {D : Type}
    (answer : nat -> RetalkingInput D -> result string)
    (input_audio : string) (audio_duration : D) : M World string :=
  try_except
    (output <-
       run answer (mkRetalkingInput face_url input_audio audio_duration) ;;
     if negb (truthy output) then raise no_output else ret output)
    (fun _ => raise video_failure).

Definition talking_head {D : Type}
    (answer : nat -> RetalkingInput D -> result string)
    (input_audio : string) (audio_duration : D) : M World string :=
  retry_reraise 3 1 (talking_head_once answer input_audio audio_duration).

(** An answer that makes an attempt of [generate_image] fail. *)
Definition no_image (answer : result (list string)) : bool :=
  match answer with
  | Return (_ :: _) => false
  | _ => true
  end.

(** An answer that makes an attempt of [talking_head] fail. *)
Definition no_video (answer : result string) : bool :=
  match answer with
  | Return output => negb (truthy output)
  | Raise _ => true
  end.

End replicate_calls.

(* ================================================================= *)
(** ** text_to_audio.py *)

Module text_to_audio.

(** [os.getenv]. *)
Definition Environ : Type := string -> option string.

(** Truthiness of an optional string: unset and empty are falsy. *)
Definition set (x : option string) : bool :=
  match x with
  | Some s => truthy s
  | None => false
  end.

(** The fields [__init__] sets before it builds the storage client. *)
Record ElevenLabsTTSModel : Type := mkElevenLabsTTSModel {
  api_key : option string;
  model : string;
  voice : string;
  account_id : option string;
  access_key_id : option string;
  secret_access_key : option string;
  bucket_name : option string;
  public_bucket_url : option string
}.

(** [all(l)]. *)
Definition all (l : list (option string)) : bool := forallb set l.

(** [x or y]. *)
Definition or_else (x y : option string) : option string :=
  if set x then x else y.

(** [ElevenLabsTTSModel.__init__], up to the construction of the storage
    client, whose outcome is [storage_client]. *)
Definition new_ElevenLabsTTSModel (getenv : Environ)
    (storage_client : result unit) (key : option string)
  : result ElevenLabsTTSModel :=
  let api_key := or_else key (getenv "ELEVENLABS_API_KEY") in
  if negb (set api_key)
  then Raise (mkExn ValueError "ELEVENLABS_API_KEY is not set")
  else
    let account_id := getenv "R2_ACCOUNT_ID" in
    let access_key_id := getenv "R2_ACCESS_KEY_ID" in
    let secret_access_key := getenv "R2_SECRET_ACCESS_KEY" in
    let bucket_name := getenv "R2_BUCKET_NAME" in
    let public_bucket_url := getenv "R2_PUBLIC_BUCKET_URL" in
    if negb (all [account_id; access_key_id; secret_access_key; bucket_name;
                  public_bucket_url])
    then Raise (mkExn ValueError "R2 configuration is incomplete")
    else
      match storage_client with
      | Raise e => Raise e
      | Return _ =>
          Return (mkElevenLabsTTSModel api_key "eleven_multilingual_v2"
                    "Daniel" account_id access_key_id secret_access_key
                    bucket_name public_bucket_url)
      end.

End text_to_audio.

(* ################################################################# *)
(** * Part II: lemmas and theorems *)

(* ================================================================= *)
(** ** agentic_rag.py: the fan-in *)

Section FanIn.

Import agentic_rag.

Lemma pop_expected_firstn_skipn (n : nat) (buf : list SubAnswerEvent) :
  pop_expected n buf = (firstn n buf, skipn n buf).
Proof.
  revert buf; induction n as [|n IH]; intros buf; simpl.
  - reflexivity.
  - destruct buf as [|e buf'].
    + rewrite IH. now rewrite firstn_nil, skipn_nil.
    + now rewrite IH.
Qed.

Lemma collect_events_waiting (ev : SubAnswerEvent) (n : nat) (r : Run) :
  (List.length (events_buffer r) + 1 < n)%nat ->
  collect_events ev n r =
    (Return None,
     mkRun (events_buffer r ++ [ev]) (sent_events r) (index_queries r)).
Proof.
  intros Hlt. unfold collect_events.
  rewrite pop_expected_firstn_skipn.
  assert (Hlen : List.length (events_buffer r ++ [ev]) = 
                 (List.length (events_buffer r) + 1)%nat)
    by (rewrite length_app; reflexivity).
  rewrite firstn_all2, skipn_all2 by lia.
  rewrite Hlen.
  destruct (Nat.eqb_spec (List.length (events_buffer r) + 1) n) as [E|_].
  - lia.
  - reflexivity.
Qed.

Lemma collect_events_complete (ev : SubAnswerEvent) (n : nat) (r : Run) :
  (List.length (events_buffer r) + 1 = n)%nat ->
  collect_events ev n r =
    (Return (Some (events_buffer r ++ [ev])),
     mkRun [] (sent_events r) (index_queries r)).
Proof.
  intros Heq. unfold collect_events.
  rewrite pop_expected_firstn_skipn.
  assert (Hlen : List.length (events_buffer r ++ [ev]) = n)
    by (rewrite length_app; simpl; lia).
  rewrite firstn_all2, skipn_all2 by lia.
  rewrite Hlen, Nat.eqb_refl. reflexivity.
Qed.

Lemma deliver_until_complete (self : RAGWorkflow)
    (earlier : list SubAnswerEvent) (last : SubAnswerEvent) :
  forall buf sent asked,
    (List.length buf + List.length earlier + 1)%nat
      = Z.to_nat (num_questions self) ->
    deliver self (earlier ++ [last]) (mkRun buf sent asked) =
      (Return (repeat None (List.length earlier)
               ++ [Some (mkStopEvent
                           (combined_answer (buf ++ earlier ++ [last])))]),
       mkRun [] sent asked).
Proof.
  induction earlier as [|e earlier IH]; intros buf sent asked Hn; simpl.
  - unfold bind, combine_answers, bind.
    rewrite collect_events_complete by (simpl in *; lia).
    reflexivity.
  - unfold bind at 1. unfold combine_answers at 1. unfold bind at 1.
    rewrite collect_events_waiting by (simpl in *; lia).
    simpl. unfold bind at 1.
    rewrite IH by (rewrite length_app; simpl in *; lia).
    simpl. now rewrite <- app_assoc.
Qed.

End FanIn.

Section Aggregator.

Import agentic_rag.

(** C1.  The aggregator releases a result only on the N-th arriving answer
    event.  Starting from an empty buffer and with N = [num_questions], the
    arrivals [earlier ++ [last]], N in all, are handed to [combine_answers]
    one by one: each of the first N - 1 calls returns no result, the N-th
    returns the stop event, and its text lists the pairs in arrival order.
    For N = 3 and arrivals C, A, B the text reads C, A, B. *)
Theorem combine_answers_fan_in :
  forall (self : RAGWorkflow) (earlier : list SubAnswerEvent)
         (last : SubAnswerEvent) (r : Run),
    events_buffer r = [] ->
    len (earlier ++ [last]) = num_questions self ->
    deliver self (earlier ++ [last]) r =
      (Return (repeat None (List.length earlier)
               ++ [Some (mkStopEvent (combined_answer (earlier ++ [last])))]),
       r)
    /\ (forall C A B : SubAnswerEvent,
          earlier = [C; A] -> last = B ->
          deliver self [C; A; B] r =
            (Return [None; None;
                     Some (mkStopEvent
                             (format_event C ^^ nl ^^ nl ^^ format_event A
                              ^^ nl ^^ nl ^^ format_event B))],
             r)).
Proof.
  intros self earlier last r Hbuf Hn.
  assert (Hgen :
    deliver self (earlier ++ [last]) r =
      (Return (repeat None (List.length earlier)
               ++ [Some (mkStopEvent (combined_answer (earlier ++ [last])))]),
       r)).
  { destruct r as [buf sent asked]; simpl in Hbuf; subst buf.
    rewrite (deliver_until_complete self earlier last [] sent asked).
    - reflexivity.
    - unfold len in Hn. rewrite length_app in Hn. simpl in *. lia. }
  split; [exact Hgen|].
  intros C A B -> ->. exact Hgen.
Qed.

Lemma combine_answers_fan_in_witness :
  let C := mkSubAnswerEvent "C?" "c" in
  let A := mkSubAnswerEvent "A?" "a" in
  let B := mkSubAnswerEvent "B?" "b" in
  let self :=
    mkRAGWorkflow (mkLlamaCloudIndex (fun q => Return q))
      (mkOpenAI (fun _ _ => Return (mkSubQuestions []))) 3 in
  deliver self [C; A; B] fresh_run =
    (Return [None; None;
             Some (mkStopEvent
                     ("Q: C?" ^^ nl ^^ "A: c" ^^ nl ^^ nl
                      ^^ "Q: A?" ^^ nl ^^ "A: a" ^^ nl ^^ nl
                      ^^ "Q: B?" ^^ nl ^^ "A: b"))],
     fresh_run).
Proof.
  intros C A B self.
  apply (combine_answers_fan_in self [C; A] B fresh_run);
    reflexivity.
Defined.

End Aggregator.

(* ================================================================= *)
(** ** agentic_rag.py: the sub-question generator *)

Section Generator.

Import agentic_rag.

Lemma send_each_appends (qs : list string) (r : Run) :
  send_each qs r =
    (Return tt,
     mkRun (events_buffer r)
       (sent_events r
        ++ map (fun q => mkSubQuestionsEvent [mkSubQuestion q]) qs)
       (index_queries r)).
Proof.
  revert r; induction qs as [|q qs IH]; intros r; simpl.
  - unfold ret. destruct r; simpl. now rewrite app_nil_r.
  - unfold bind, send_event. rewrite IH. simpl.
    now rewrite <- app_assoc.
Qed.

Lemma rebuild_questions (l : list SubQuestion) :
  map mkSubQuestion (map sq_question l) = l.
Proof.
  induction l as [|[q] l IH]; simpl; [reflexivity | now rewrite IH].
Qed.

(** What [generate_sub_questions] does once the completion has answered. *)
Lemma generate_sub_questions_after_parse
    (self : RAGWorkflow) (query : string) (parsed : SubQuestions) (r : Run) :
  completions_parse (openai_client self)
    (system_message (num_questions self))
    (user_message (num_questions self) query) = Return parsed ->
  generate_sub_questions self query r =
    if len (sqs_questions parsed) =? num_questions self
    then (Return (mkSubQuestionsEvent (sqs_questions parsed)),
          mkRun (events_buffer r)
            (sent_events r
             ++ map (fun q => mkSubQuestionsEvent [q]) (sqs_questions parsed))
            (index_queries r))
    else (Raise (count_mismatch (num_questions self)
                   (len (sqs_questions parsed))), r).
Proof.
  intros Hparse. unfold generate_sub_questions, bind at 1, lift.
  rewrite Hparse.
  assert (Hlen : len (map sq_question (sqs_questions parsed))
                 = len (sqs_questions parsed))
    by (unfold len; now rewrite length_map).
  rewrite Hlen.
  destruct (len (sqs_questions parsed) =? num_questions self); simpl.
  - unfold bind. rewrite send_each_appends. unfold ret.
    rewrite rebuild_questions, map_map.
    do 3 f_equal. apply map_ext. now intros [q].
  - reflexivity.
Qed.

(** C2.  Whatever the configured N and whatever the completion answers: when
    the number of parsed sub-questions differs from N the generator raises
    the count-mismatch [ValueError], nothing is sent and nothing is put in
    its place; when the number equals N the generator returns and the run
    goes on with one event sent per sub-question. *)
Theorem generate_sub_questions_count_check :
  forall (self : RAGWorkflow) (query : string) (parsed : SubQuestions)
         (r : Run),
    completions_parse (openai_client self)
      (system_message (num_questions self))
      (user_message (num_questions self) query) = Return parsed ->
    (len (sqs_questions parsed) <> num_questions self ->
     generate_sub_questions self query r =
       (Raise (mkExn ValueError
                 ("Expected " ^^ str_int (num_questions self)
                  ^^ " sub-questions, but got "
                  ^^ str_int (len (sqs_questions parsed)))), r))
    /\ (len (sqs_questions parsed) = num_questions self ->
        generate_sub_questions self query r =
          (Return (mkSubQuestionsEvent (sqs_questions parsed)),
           mkRun (events_buffer r)
             (sent_events r
              ++ map (fun q => mkSubQuestionsEvent [q]) (sqs_questions parsed))
             (index_queries r))).
Proof.
  intros self query parsed r Hparse.
  rewrite (generate_sub_questions_after_parse self query parsed r Hparse).
  split; intros H.
  - apply Z.eqb_neq in H. now rewrite H.
  - apply Z.eqb_eq in H. now rewrite H.
Qed.

Lemma generate_sub_questions_count_check_witness :
  let two := mkSubQuestions [mkSubQuestion "Q1"; mkSubQuestion "Q2"] in
  let self n :=
    mkRAGWorkflow (mkLlamaCloudIndex (fun q => Return q))
      (mkOpenAI (fun _ _ => Return two)) n in
  generate_sub_questions (self 3) "free will" fresh_run =
    (Raise (mkExn ValueError "Expected 3 sub-questions, but got 2"), fresh_run)
  /\ generate_sub_questions (self 2) "free will" fresh_run =
       (Return (mkSubQuestionsEvent (sqs_questions two)),
        mkRun [] [mkSubQuestionsEvent [mkSubQuestion "Q1"];
                  mkSubQuestionsEvent [mkSubQuestion "Q2"]] []).
Proof.
  intros two self. split.
  - apply (generate_sub_questions_count_check (self 3) "free will" two
             fresh_run); [reflexivity | discriminate].
  - apply (generate_sub_questions_count_check (self 2) "free will" two
             fresh_run); reflexivity.
Defined.

Lemma emitted_singletons (l : list SubQuestion) :
  emitted (map (fun q => mkSubQuestionsEvent [q]) l) = map sq_question l.
Proof.
  induction l as [|q l IH]; simpl; [reflexivity | now rewrite IH].
Qed.

(** C8, as the code has it.  Whenever the generator returns, it has sent
    exactly N events, one per parsed sub-question and in the order of the
    completion's answer; the code makes no distinctness check of its own, so
    the sent questions are pairwise distinct when the completion's are. *)
Theorem generate_sub_questions_emits_response :
  forall (self : RAGWorkflow) (query : string) (ev : SubQuestionsEvent)
         (r r' : Run),
    generate_sub_questions self query r = (Return ev, r') ->
    exists (parsed : SubQuestions) (sent : list SubQuestionsEvent),
      completions_parse (openai_client self)
        (system_message (num_questions self))
        (user_message (num_questions self) query) = Return parsed
      /\ sent_events r' = sent_events r ++ sent
      /\ len sent = num_questions self
      /\ emitted sent = map sq_question (sqs_questions parsed)
      /\ (NoDup (map sq_question (sqs_questions parsed)) ->
          NoDup (emitted sent)).
Proof.
  intros self query ev r r' Hrun.
  destruct (completions_parse (openai_client self)
              (system_message (num_questions self))
              (user_message (num_questions self) query))
    as [parsed|e] eqn:Hparse.
  - rewrite (generate_sub_questions_after_parse self query parsed r Hparse)
      in Hrun.
    destruct (Z.eqb_spec (len (sqs_questions parsed)) (num_questions self))
      as [Hn|Hn]; [|discriminate].
    inversion Hrun; subst; clear Hrun.
    exists parsed, (map (fun q => mkSubQuestionsEvent [q]) (sqs_questions parsed)).
    simpl. repeat split.
    + unfold len in *. now rewrite length_map.
    + apply emitted_singletons.
    + now rewrite emitted_singletons.
  - unfold generate_sub_questions, bind, lift in Hrun.
    rewrite Hparse in Hrun. discriminate.
Qed.

Lemma generate_sub_questions_emits_response_witness :
  let two := mkSubQuestions [mkSubQuestion "Q1"; mkSubQuestion "Q2"] in
  let self :=
    mkRAGWorkflow (mkLlamaCloudIndex (fun q => Return q))
      (mkOpenAI (fun _ _ => Return two)) 2 in
  exists (parsed : SubQuestions) (sent : list SubQuestionsEvent),
    Return two = Return parsed
    /\ [mkSubQuestionsEvent [mkSubQuestion "Q1"];
        mkSubQuestionsEvent [mkSubQuestion "Q2"]] = [] ++ sent
    /\ len sent = 2
    /\ emitted sent = map sq_question (sqs_questions parsed)
    /\ (NoDup (map sq_question (sqs_questions parsed)) ->
        NoDup (emitted sent)).
Proof.
  intros two self.
  apply (generate_sub_questions_emits_response self "free will"
           (mkSubQuestionsEvent (sqs_questions two)) fresh_run
           (mkRun [] [mkSubQuestionsEvent [mkSubQuestion "Q1"];
                      mkSubQuestionsEvent [mkSubQuestion "Q2"]] [])).
  reflexivity.
Defined.

(** C8 fails as stated: a completion that answers with the same question
    twice passes the count check for N = 2, and both copies are sent. *)
Lemma generate_sub_questions_sends_duplicates :
  let twice := mkSubQuestions [mkSubQuestion "Q1"; mkSubQuestion "Q1"] in
  let self :=
    mkRAGWorkflow (mkLlamaCloudIndex (fun q => Return q))
      (mkOpenAI (fun _ _ => Return twice)) 2 in
  exists (ev : SubQuestionsEvent) (r' : Run),
    generate_sub_questions self "free will" fresh_run = (Return ev, r')
    /\ emitted (sent_events r') = ["Q1"; "Q1"]
    /\ ~ NoDup (emitted (sent_events r')).
Proof.
  intros twice self.
  exists (mkSubQuestionsEvent (sqs_questions twice)).
  exists (mkRun [] [mkSubQuestionsEvent [mkSubQuestion "Q1"];
                    mkSubQuestionsEvent [mkSubQuestion "Q1"]] []).
  split; [vm_compute; reflexivity|]. split; [reflexivity|].
  simpl. intros Hnd. inversion Hnd as [|x l Hnotin _]; subst.
  apply Hnotin. now left.
Qed.

End Generator.

(* ================================================================= *)
(** ** agentic_rag.py: the retrieval step *)

Section Retriever.

Import agentic_rag.

Lemma truthy_nonempty (s : string) : s <> EmptyString -> truthy s = true.
Proof. destruct s; [congruence | reflexivity]. Qed.

(** C3.  For a non-empty sub-question whose retrieval raises, the step does
    not raise: it queries the index once and returns one answer event that
    carries the original question and a text made of the fixed prefix and
    the error message. *)
Theorem query_llama_cloud_contains_failure :
  forall (self : RAGWorkflow) (ev : SubQuestionsEvent) (query : string)
         (others : list SubQuestion) (e : exn) (r : Run),
    questions ev = mkSubQuestion query :: others ->
    query <> EmptyString ->
    query_engine_query (llama_cloud_index self) query = Raise e ->
    query_llama_cloud self ev r =
      (Return (mkSubAnswerEvent query
                 ("Error querying LlamaCloud: " ^^ str_exn e)),
       mkRun (events_buffer r) (sent_events r) (index_queries r ++ [query])).
Proof.
  intros self ev query others e r Hev Hne Hraise.
  unfold query_llama_cloud, bind at 1, first_question.
  rewrite Hev. simpl.
  rewrite (truthy_nonempty query Hne). simpl.
  unfold try_except, bind, query_index. rewrite Hraise. reflexivity.
Qed.

Lemma query_llama_cloud_contains_failure_witness :
  let down := mkExn (OtherError "ConnectionError") "index unreachable" in
  let self :=
    mkRAGWorkflow (mkLlamaCloudIndex (fun _ => Raise down))
      (mkOpenAI (fun _ _ => Return (mkSubQuestions []))) 2 in
  query_llama_cloud self (mkSubQuestionsEvent [mkSubQuestion "Q2"]) fresh_run =
    (Return (mkSubAnswerEvent "Q2"
               "Error querying LlamaCloud: index unreachable"),
     mkRun [] [] ["Q2"]).
Proof.
  intros down self.
  apply (query_llama_cloud_contains_failure self
           (mkSubQuestionsEvent [mkSubQuestion "Q2"]) "Q2" [] down fresh_run);
    [reflexivity | discriminate | reflexivity].
Defined.

(** C4.  When the first question of the event is the empty string, the step
    returns the canned answer and leaves the run as it was: the index is not
    queried, whatever it would have answered. *)
Theorem query_llama_cloud_empty_query :
  forall (self : RAGWorkflow) (ev : SubQuestionsEvent)
         (others : list SubQuestion) (r : Run),
    questions ev = mkSubQuestion EmptyString :: others ->
    query_llama_cloud self ev r =
      (Return (mkSubAnswerEvent "Unknown Question" "Error: Empty query"), r)
    /\ index_queries (snd (query_llama_cloud self ev r)) = index_queries r.
Proof.
  intros self ev others r Hev.
  assert (H : query_llama_cloud self ev r =
              (Return (mkSubAnswerEvent "Unknown Question"
                         "Error: Empty query"), r)).
  { unfold query_llama_cloud, bind, first_question. rewrite Hev. reflexivity. }
  split; [exact H | now rewrite H].
Qed.

Lemma query_llama_cloud_empty_query_witness :
  let self :=
    mkRAGWorkflow (mkLlamaCloudIndex (fun q => Return q))
      (mkOpenAI (fun _ _ => Return (mkSubQuestions []))) 3 in
  let ev := mkSubQuestionsEvent [mkSubQuestion ""] in
  query_llama_cloud self ev fresh_run =
    (Return (mkSubAnswerEvent "Unknown Question" "Error: Empty query"),
     fresh_run)
  /\ index_queries (snd (query_llama_cloud self ev fresh_run)) = [].
Proof.
  intros self ev.
  apply (query_llama_cloud_empty_query self ev [] fresh_run).
  reflexivity.
Defined.

End Retriever.

(* ================================================================= *)
(** ** agentic_rag.py: the top-level call *)

Section TopLevel.

Import agentic_rag.

(** C7.  Once the key is set and both clients are built, [process_query]
    never raises for what the workflow run does: an exception that escapes
    the run is turned into the returned string "An error occurred during
    processing: " followed by its message, and a successful run's combined
    result is returned as it is. *)
Theorem process_query_surfaces_error_string :
  forall (env : Env) (user_query : string) (num_subquestions : Z)
         (api_key : string) (index : LlamaCloudIndex) (client : OpenAI),
    getenv_LLAMAINDEX_API_KEY env = Some api_key ->
    api_key <> EmptyString ->
    new_LlamaCloudIndex env api_key = Return index ->
    new_OpenAI env = Return client ->
    let workflow := mkRAGWorkflow index client num_subquestions in
    (forall e : exn,
       workflow_run env workflow user_query = Raise e ->
       process_query env user_query num_subquestions =
         Return ("An error occurred during processing: " ^^ str_exn e))
    /\ (forall combined_result : string,
          workflow_run env workflow user_query = Return combined_result ->
          process_query env user_query num_subquestions =
            Return combined_result).
Proof.
  intros env user_query n api_key index client Hkey Hne Hidx Hcli workflow.
  unfold process_query. rewrite Hkey, (truthy_nonempty api_key Hne).
  simpl. rewrite Hidx, Hcli. fold workflow.
  split; intros x Hrun; now rewrite Hrun.
Qed.

Lemma process_query_surfaces_error_string_witness :
  let index := mkLlamaCloudIndex (fun q => Return q) in
  let client := mkOpenAI (fun _ _ => Return (mkSubQuestions [])) in
  let run (wf : RAGWorkflow) (q : string) : result string :=
    match fst (generate_sub_questions wf q fresh_run) with
    | Return _ => Return "Q: Q1"
    | Raise e => Raise e
    end in
  let env := mkEnv (Some "llx-key") (fun _ => Return index) (Return client) run in
  process_query env "free will" 3 =
    Return "An error occurred during processing: Expected 3 sub-questions, but got 0".
Proof.
  intros index client run env.
  assert (Hkey : "llx-key" <> EmptyString) by discriminate.
  exact (proj1 (process_query_surfaces_error_string env "free will" 3
                  "llx-key" index client eq_refl Hkey eq_refl eq_refl)
           (count_mismatch 3 0) eq_refl).
Defined.

End TopLevel.

(* ================================================================= *)
(** ** agentic_rag.py: reading the combined text back *)

Section ReadBack.

Import agentic_rag.
Import qa_reader.

Lemma append_nil_r (s : string) : s ^^ EmptyString = s.
Proof. induction s as [|c s IH]; simpl; [reflexivity | now rewrite IH]. Qed.

Lemma append_assoc (s t u : string) : (s ^^ t) ^^ u = s ^^ t ^^ u.
Proof. induction s as [|c s IH]; simpl; [reflexivity | now rewrite IH]. Qed.

Lemma strip_prefix_append (p s : string) : strip_prefix p (p ^^ s) = Some s.
Proof.
  induction p as [|a p IH]; simpl; [reflexivity|].
  now rewrite Ascii.eqb_refl.
Qed.

Lemma strip_prefix_cons (a : ascii) (p : string) (c : ascii) (s : string) :
  strip_prefix (String a p) (String c s) =
    if Ascii.eqb a c then strip_prefix p s else None.
Proof. reflexivity. Qed.

(** Where the blank-line separator can start. *)
Lemma strip_separator_cons (c : ascii) (s : string) :
  strip_prefix (nl ^^ nl) (String c s) =
    if Ascii.eqb LF c then
      match s with
      | EmptyString => None
      | String d s' => if Ascii.eqb LF d then Some s' else None
      end
    else None.
Proof. reflexivity. Qed.

Lemma no_separator_at_head (c : ascii) (s : string) :
  Ascii.eqb c LF && starts_with_LF s = false ->
  strip_prefix (nl ^^ nl) (String c s) = None.
Proof.
  intros H. rewrite strip_separator_cons.
  rewrite (Ascii.eqb_sym LF c).
  destruct (Ascii.eqb c LF); [|reflexivity].
  destruct s as [|d s']; [reflexivity|].
  simpl in H. rewrite (Ascii.eqb_sym LF d), H. reflexivity.
Qed.

Lemma cut_cons_miss (sep : string) (c : ascii) (s : string) :
  strip_prefix sep (String c s) = None ->
  cut sep (String c s) =
    match cut sep s with
    | Some (before, rest) => Some (String c before, rest)
    | None => None
    end.
Proof. intros H. simpl cut. now rewrite H. Qed.

(** A block without a blank line that does not end with a line feed is cut
    off exactly at the separator that follows it. *)
Lemma cut_block (b rest : string) :
  has_blank_line b = false ->
  ends_with_LF b = false ->
  cut (nl ^^ nl) (b ^^ (nl ^^ nl) ^^ rest) = Some (b, rest).
Proof.
  induction b as [|c b IH]; intros Hblank Hend.
  - reflexivity.
  - change (String c b ^^ (nl ^^ nl) ^^ rest)
      with (String c (b ^^ (nl ^^ nl) ^^ rest)).
    rewrite cut_cons_miss.
    + rewrite IH; [reflexivity | |].
      * destruct b as [|d b']; [reflexivity|].
        simpl in Hblank. now apply orb_false_iff in Hblank.
      * destruct b as [|d b']; [reflexivity | exact Hend].
    + apply no_separator_at_head.
      destruct b as [|d b'].
      * simpl in Hend. now rewrite Hend.
      * simpl in Hblank. apply orb_false_iff in Hblank. apply Hblank.
Qed.

Lemma cut_last_block (b : string) :
  has_blank_line b = false -> cut (nl ^^ nl) b = None.
Proof.
  induction b as [|c b IH]; intros Hblank.
  - reflexivity.
  - rewrite cut_cons_miss.
    + rewrite IH; [reflexivity|].
      destruct b as [|d b']; [reflexivity|].
      simpl in Hblank. now apply orb_false_iff in Hblank.
    + apply no_separator_at_head.
      destruct b as [|d b'].
      * simpl. apply andb_false_r.
      * simpl in Hblank. apply orb_false_iff in Hblank. apply Hblank.
Qed.

Lemma split_fuel_S (fuel : nat) (sep s : string) :
  split_fuel (S fuel) sep s =
    match cut sep s with
    | None => [s]
    | Some (before, rest) => before :: split_fuel fuel sep rest
    end.
Proof. reflexivity. Qed.

Lemma split_fuel_join (blocks : list string) :
  forall fuel : nat,
    blocks <> [] ->
    Forall clean blocks ->
    (List.length blocks <= S fuel)%nat ->
    split_fuel fuel (nl ^^ nl) (join (nl ^^ nl) blocks) = blocks.
Proof.
  induction blocks as [|b blocks IH]; intros fuel Hne Hclean Hfuel.
  - congruence.
  - inversion Hclean as [|? ? [Hblank Hend] Hclean']; subst.
    destruct blocks as [|b2 blocks].
    + unfold join; simpl String.concat.
      destruct fuel; simpl split_fuel; now rewrite cut_last_block.
    + unfold join in *. 
      change (String.concat (nl ^^ nl) (b :: b2 :: blocks))
        with (b ^^ (nl ^^ nl) ^^ String.concat (nl ^^ nl) (b2 :: blocks)).
      destruct fuel as [|fuel]; [simpl in Hfuel; lia|].
      rewrite split_fuel_S, cut_block by assumption.
      f_equal. apply IH; [discriminate | assumption | simpl in *; lia].
Qed.

Lemma length_append (s t : string) :
  String.length (s ^^ t) = (String.length s + String.length t)%nat.
Proof. induction s as [|c s IH]; simpl; [reflexivity | now rewrite IH]. Qed.

Lemma join_length_bound (sep : string) (blocks : list string) :
  (1 <= String.length sep)%nat ->
  (List.length blocks <= S (String.length (join sep blocks)))%nat.
Proof.
  intros Hsep. induction blocks as [|b blocks IH]; [simpl; lia|].
  destruct blocks as [|b2 blocks]; [simpl; lia|].
  unfold join in *.
  change (String.concat sep (b :: b2 :: blocks))
    with (b ^^ sep ^^ String.concat sep (b2 :: blocks)).
  rewrite !length_append. simpl List.length in *. lia.
Qed.

Lemma split_on_join (blocks : list string) :
  blocks <> [] ->
  Forall clean blocks ->
  split_on (nl ^^ nl) (join (nl ^^ nl) blocks) = blocks.
Proof.
  intros Hne Hclean. unfold split_on.
  apply split_fuel_join; try assumption.
  apply join_length_bound. simpl. lia.
Qed.

Lemma has_blank_line_append (s t : string) :
  has_blank_line (s ^^ t) =
    has_blank_line s || has_blank_line t
    || (ends_with_LF s && starts_with_LF t).
Proof.
  induction s as [|c s IH].
  - simpl. now rewrite orb_false_r.
  - destruct s as [|d s'].
    + destruct t as [|d t']; simpl.
      * now rewrite andb_false_r.
      * apply orb_comm.
    + change (has_blank_line ((String c (String d s')) ^^ t))
        with (Ascii.eqb c LF && Ascii.eqb d LF
              || has_blank_line (String d s' ^^ t)).
      rewrite IH.
      change (has_blank_line (String c (String d s')))
        with (Ascii.eqb c LF && Ascii.eqb d LF
              || has_blank_line (String d s')).
      change (ends_with_LF (String c (String d s')))
        with (ends_with_LF (String d s')).
      now rewrite !orb_assoc.
Qed.

Lemma ends_with_LF_append (s : string) (c : ascii) (t : string) :
  ends_with_LF (s ^^ String c t) = ends_with_LF (String c t).
Proof.
  induction s as [|a s IH]; [reflexivity|].
  change (ends_with_LF (String a s ^^ String c t))
    with (ends_with_LF (String a (s ^^ String c t))).
  destruct s as [|b s']; [reflexivity|].
  exact IH.
Qed.

Lemma single_line_no_blank_line (s : string) :
  single_line s = true -> has_blank_line s = false.
Proof.
  induction s as [|c s IH]; [reflexivity|].
  intros H. simpl in H. apply andb_true_iff in H. destruct H as [Hc Hs].
  destruct s as [|d s']; [reflexivity|].
  change (Ascii.eqb c LF && Ascii.eqb d LF || has_blank_line (String d s')
          = false).
  rewrite (IH Hs). apply negb_true_iff in Hc. now rewrite Hc.
Qed.

Lemma single_line_no_LF_end (s : string) :
  single_line s = true -> ends_with_LF s = false.
Proof.
  induction s as [|c s IH]; [reflexivity|].
  intros H. simpl in H. apply andb_true_iff in H. destruct H as [Hc Hs].
  destruct s as [|d s']; [now apply negb_true_iff in Hc | exact (IH Hs)].
Qed.

Lemma format_event_clean (ev : SubAnswerEvent) :
  readable ev -> clean (format_event ev).
Proof.
  intros (Hq & Hblank & Hend). destruct ev as [q a]; simpl in *.
  unfold format_event; simpl question; simpl sub_answer.
  split.
  - rewrite !has_blank_line_append.
    rewrite (single_line_no_blank_line q Hq), (single_line_no_LF_end q Hq).
    rewrite Hblank. reflexivity.
  - change ("A: " ^^ a) with (String "A" (": " ^^ a)).
    change (nl ^^ String "A" (": " ^^ a))
      with (String LF (String "A" (": " ^^ a))).
    rewrite <- (append_assoc "Q: " q).
    rewrite ends_with_LF_append.
    destruct a as [|d a']; [reflexivity | exact Hend].
Qed.

Lemma cut_question (q a : string) :
  single_line q = true ->
  cut (nl ^^ "A: ") (q ^^ nl ^^ "A: " ^^ a) = Some (q, a).
Proof.
  induction q as [|c q IH]; intros Hq.
  - reflexivity.
  - simpl in Hq. apply andb_true_iff in Hq. destruct Hq as [Hc Hq].
    change (String c q ^^ nl ^^ "A: " ^^ a)
      with (String c (q ^^ nl ^^ "A: " ^^ a)).
    rewrite cut_cons_miss.
    + now rewrite (IH Hq).
    + apply negb_true_iff in Hc.
      change (nl ^^ "A: ") with (String LF "A: ").
      rewrite strip_prefix_cons, (Ascii.eqb_sym LF c), Hc. reflexivity.
Qed.

Lemma read_block_format_event (ev : SubAnswerEvent) :
  readable ev -> read_block (format_event ev) = Some (pair_of ev).
Proof.
  intros (Hq & _ & _). unfold read_block, format_event.
  rewrite strip_prefix_append. now apply cut_question.
Qed.

Lemma read_blocks_format_events (evs : list SubAnswerEvent) :
  Forall readable evs ->
  read_blocks (map format_event evs) = Some (map pair_of evs).
Proof.
  induction 1 as [|ev evs Hev _ IH]; [reflexivity|].
  simpl. now rewrite (read_block_format_event ev Hev), IH.
Qed.

Lemma combined_answer_cons (ev : SubAnswerEvent) (evs : list SubAnswerEvent) :
  exists t : string, combined_answer (ev :: evs) = String "Q" t.
Proof.
  unfold combined_answer, join. destruct evs as [|ev2 evs]; simpl;
    eexists; reflexivity.
Qed.

(** C6, as the code has it.  When every question is a single line and no
    answer contains a blank line or ends with a line feed, reading the
    aggregator's combined text back recovers the same (question, answer)
    pairs in the same order. *)
Theorem read_combined_round_trip :
  forall evs : list SubAnswerEvent,
    Forall readable evs ->
    read_combined (combined_answer evs) = Some (map pair_of evs).
Proof.
  intros evs Hread. destruct evs as [|ev evs]; [reflexivity|].
  destruct (combined_answer_cons ev evs) as [t Ht].
  unfold read_combined. rewrite Ht, <- Ht.
  unfold combined_answer. rewrite split_on_join.
  - now apply read_blocks_format_events.
  - discriminate.
  - apply Forall_forall. intros b Hb.
    apply in_map_iff in Hb. destruct Hb as (e & <- & He).
    apply format_event_clean.
    now apply (proj1 (Forall_forall _ _) Hread).
Qed.

Lemma read_combined_round_trip_witness :
  read_combined
    (combined_answer
       [mkSubAnswerEvent "Q1" ("first line" ^^ nl ^^ "second line");
        mkSubAnswerEvent "Q2" "Error querying LlamaCloud: timeout"])
  = Some [("Q1", "first line" ^^ nl ^^ "second line");
          ("Q2", "Error querying LlamaCloud: timeout")].
Proof.
  apply (read_combined_round_trip
           [mkSubAnswerEvent "Q1" ("first line" ^^ nl ^^ "second line");
            mkSubAnswerEvent "Q2" "Error querying LlamaCloud: timeout"]).
  repeat constructor.
Defined.

(** C6 fails as stated: an answer that itself holds a blank line followed by
    the markers gives the same combined text as two separate pairs, so no
    reader can tell the two inputs apart; the reader above returns the two
    pairs, not the one that was supplied. *)
Lemma read_combined_marker_in_answer :
  let one :=
    [mkSubAnswerEvent "q" ("a" ^^ nl ^^ nl ^^ "Q: x" ^^ nl ^^ "A: y")] in
  let two := [mkSubAnswerEvent "q" "a"; mkSubAnswerEvent "x" "y"] in
  combined_answer one = combined_answer two
  /\ map pair_of one <> map pair_of two
  /\ read_combined (combined_answer one) = Some (map pair_of two)
  /\ read_combined (combined_answer one) <> Some (map pair_of one).
Proof.
  intros one two. repeat split.
  - discriminate.
  - vm_compute. discriminate.
Qed.

End ReadBack.

(* ================================================================= *)
(** ** img_to_video.py: the polling loop *)

Section Polling.

Import img_to_video.

Variable client : AsyncLumaAI.
Variable generation_id : string.
Variable delay : Z.

(** The answer to the [i]-th poll counted from world [w]. *)
Local Abbreviation poll_answer w i :=
  (generations_get client (gets w + i)%nat generation_id).

Lemma poll_loop_step_pending (n : nat) (w : World) :
  keeps_polling (poll_answer w 0%nat) = true ->
  poll_loop client generation_id delay (S n) w =
    poll_loop client generation_id delay n
      (mkWorld (creates w) (S (gets w)) (slept w + delay)).
Proof.
  intros Hp. rewrite Nat.add_0_r in Hp.
  simpl poll_loop. unfold get.
  destruct (generations_get client (gets w) generation_id) as [status|e].
  - simpl in Hp. apply andb_true_iff in Hp. destruct Hp as [Hc Hf].
    apply negb_true_iff in Hc, Hf. rewrite Hc, Hf. reflexivity.
  - reflexivity.
Qed.

Lemma poll_loop_skips_pending (k : nat) :
  forall (n : nat) (w : World),
    (k <= n)%nat ->
    (forall i : nat, (i < k)%nat -> keeps_polling (poll_answer w i) = true) ->
    poll_loop client generation_id delay n w =
      poll_loop client generation_id delay (n - k)
        (mkWorld (creates w) (gets w + k) (slept w + Z.of_nat k * delay)).
Proof.
  induction k as [|k IH]; intros n w Hle Hpending.
  - rewrite Nat.sub_0_r, Nat.add_0_r, Z.mul_0_l, Z.add_0_r.
    now destruct w.
  - destruct n as [|n]; [lia|].
    rewrite poll_loop_step_pending by (apply Hpending; lia).
    rewrite IH.
    + simpl creates; simpl gets; simpl slept.
      replace (S (gets w) + k)%nat with (gets w + S k)%nat by lia.
      replace (slept w + delay + Z.of_nat k * delay)
        with (slept w + Z.of_nat (S k) * delay) by lia.
      reflexivity.
    + lia.
    + intros i Hi. simpl gets.
      replace (S (gets w) + i)%nat with (gets w + S i)%nat by lia.
      apply Hpending. lia.
Qed.

Lemma poll_loop_completed (n : nat) (w : World) (status : Generation) :
  generations_get client (gets w) generation_id = Return status ->
  state status = "completed" ->
  poll_loop client generation_id delay (S n) w =
    (Return tt, mkWorld (creates w) (S (gets w)) (slept w)).
Proof.
  intros Hget Hstate. simpl poll_loop. unfold get.
  rewrite Hget, Hstate. reflexivity.
Qed.

Lemma poll_loop_failed (n : nat) (w : World) (status : Generation) :
  generations_get client (gets w) generation_id = Return status ->
  state status = "failed" ->
  poll_loop client generation_id delay (S n) w =
    (Raise (mkExn Exception
              ("Generation failed: " ^^ str_opt (failure_reason status))),
     mkWorld (creates w) (S (gets w)) (slept w)).
Proof.
  intros Hget Hstate. simpl poll_loop. unfold get.
  rewrite Hget, Hstate. reflexivity.
Qed.

Lemma poll_generation_completes (max_attempts : Z) (w : World) (k : nat)
    (status : Generation) :
  Z.of_nat k < max_attempts ->
  (forall i : nat, (i < k)%nat -> keeps_polling (poll_answer w i) = true) ->
  poll_answer w k = Return status ->
  state status = "completed" ->
  poll_generation client generation_id max_attempts delay w =
    (Return tt,
     mkWorld (creates w) (gets w + S k) (slept w + Z.of_nat k * delay)).
Proof.
  intros Hk Hpending Hget Hstate. unfold poll_generation.
  rewrite (poll_loop_skips_pending k) by (try assumption; lia).
  replace (Z.to_nat max_attempts - k)%nat
    with (S (Z.to_nat max_attempts - S k)) by lia.
  rewrite (poll_loop_completed _ _ status) by assumption.
  simpl. now rewrite Nat.add_succ_r.
Qed.

Lemma poll_generation_fails (max_attempts : Z) (w : World) (k : nat)
    (status : Generation) :
  Z.of_nat k < max_attempts ->
  (forall i : nat, (i < k)%nat -> keeps_polling (poll_answer w i) = true) ->
  poll_answer w k = Return status ->
  state status = "failed" ->
  poll_generation client generation_id max_attempts delay w =
    (Raise (mkExn Exception
              ("Generation failed: " ^^ str_opt (failure_reason status))),
     mkWorld (creates w) (gets w + S k) (slept w + Z.of_nat k * delay)).
Proof.
  intros Hk Hpending Hget Hstate. unfold poll_generation.
  rewrite (poll_loop_skips_pending k) by (try assumption; lia).
  replace (Z.to_nat max_attempts - k)%nat
    with (S (Z.to_nat max_attempts - S k)) by lia.
  rewrite (poll_loop_failed _ _ status) by assumption.
  simpl. now rewrite Nat.add_succ_r.
Qed.

Lemma poll_generation_gives_up (max_attempts : Z) (w : World) :
  (forall i : nat,
     Z.of_nat i < max_attempts -> keeps_polling (poll_answer w i) = true) ->
  poll_generation client generation_id max_attempts delay w =
    (Raise (mkExn Exception "Max attempts reached"),
     mkWorld (creates w) (gets w + Z.to_nat max_attempts)
       (slept w + Z.of_nat (Z.to_nat max_attempts) * delay)).
Proof.
  intros Hpending. unfold poll_generation.
  rewrite (poll_loop_skips_pending (Z.to_nat max_attempts)).
  - now rewrite Nat.sub_diag.
  - lia.
  - intros i Hi. apply Hpending. lia.
Qed.

End Polling.

Section PollingCaller.

Import img_to_video.

Lemma retry_returns {A : Type} (n : nat) (wait : Z) (body : M World A)
    (w w' : World) (a : A) :
  body w = (Return a, w') -> retry (S n) wait body w = (Return a, w').
Proof. intros H. simpl. unfold try_except. now rewrite H. Qed.

(** The caller of the loop: when the job is created, is seen completed on
    poll [k] and is still completed, with its asset, on the status request
    that follows, the first attempt returns the asset. *)
Lemma generate_luma_video_returns_asset (client : AsyncLumaAI)
    (prompt start_image_url : option string) (aspect_ratio : string)
    (w : World) (generation status final : Generation) (k : nat) (v : string) :
  (forall req, generations_create client (creates w) req = Return generation) ->
  Z.of_nat k < MAX_ATTEMPTS ->
  (forall i : nat, (i < k)%nat ->
     keeps_polling (generations_get client (gets w + i) (id generation))
       = true) ->
  generations_get client (gets w + k) (id generation) = Return status ->
  state status = "completed" ->
  generations_get client (gets w + S k) (id generation) = Return final ->
  state final = "completed" ->
  assets_video final = Some v ->
  generate_luma_video client prompt start_image_url aspect_ratio w =
    (Return v,
     mkWorld (S (creates w)) (gets w + S (S k))
       (slept w + Z.of_nat k * POLL_INTERVAL)).
Proof.
  intros Hcreate Hk Hpending Hget Hstate Hfinal Hfstate Hasset.
  unfold generate_luma_video. apply retry_returns.
  unfold generate_luma_video_once, bind at 1, create.
  rewrite Hcreate. unfold bind at 1.
  rewrite (poll_generation_completes client (id generation) POLL_INTERVAL
             MAX_ATTEMPTS _ k status); try assumption.
  unfold bind, get. simpl gets.
  rewrite Hfinal, Hfstate. simpl. unfold assets_of. rewrite Hasset.
  unfold ret. now rewrite (Nat.add_succ_r (gets w) (S k)).
Qed.

(** C5.  Whatever the generation service answers:
    - when the first [k] polls keep the loop going, [k] below
      [max_attempts], and poll [k] reports "completed", [poll_generation]
      returns normally after [k + 1] requests, and [generate_luma_video],
      which polls with the default budget, returns the final asset;
    - when poll [k] reports "failed" instead, [poll_generation] raises on
      that poll, without a further wait, and the error carries the failure
      reason;
    - when every poll within [max_attempts] keeps the loop going,
      [poll_generation] raises "Max attempts reached". *)
Theorem poll_generation_outcomes :
  forall (client : AsyncLumaAI) (generation_id : string)
         (max_attempts delay : Z) (w : World),
    (forall (k : nat) (status : Generation),
       Z.of_nat k < max_attempts ->
       (forall i : nat, (i < k)%nat ->
          keeps_polling (generations_get client (gets w + i) generation_id)
            = true) ->
       generations_get client (gets w + k) generation_id = Return status ->
       (state status = "completed" ->
        poll_generation client generation_id max_attempts delay w =
          (Return tt,
           mkWorld (creates w) (gets w + S k)
             (slept w + Z.of_nat k * delay)))
       /\ (state status = "failed" ->
           poll_generation client generation_id max_attempts delay w =
             (Raise (mkExn Exception
                       ("Generation failed: "
                        ^^ str_opt (failure_reason status))),
              mkWorld (creates w) (gets w + S k)
                (slept w + Z.of_nat k * delay))))
    /\ ((forall i : nat,
           Z.of_nat i < max_attempts ->
           keeps_polling (generations_get client (gets w + i) generation_id)
             = true) ->
        poll_generation client generation_id max_attempts delay w =
          (Raise (mkExn Exception "Max attempts reached"),
           mkWorld (creates w) (gets w + Z.to_nat max_attempts)
             (slept w + Z.of_nat (Z.to_nat max_attempts) * delay)))
    /\ (forall (prompt start_image_url : option string)
               (aspect_ratio : string) (generation status final : Generation)
               (k : nat) (v : string),
          (forall req,
             generations_create client (creates w) req = Return generation) ->
          id generation = generation_id ->
          Z.of_nat k < MAX_ATTEMPTS ->
          (forall i : nat, (i < k)%nat ->
             keeps_polling (generations_get client (gets w + i) generation_id)
               = true) ->
          generations_get client (gets w + k) generation_id = Return status ->
          state status = "completed" ->
          generations_get client (gets w + S k) generation_id = Return final ->
          state final = "completed" ->
          assets_video final = Some v ->
          generate_luma_video client prompt start_image_url aspect_ratio w =
            (Return v,
             mkWorld (S (creates w)) (gets w + S (S k))
               (slept w + Z.of_nat k * POLL_INTERVAL))).
Proof.
  intros client generation_id max_attempts delay w. split; [|split].
  - intros k status Hk Hpending Hget. split; intros Hstate.
    + now apply poll_generation_completes with (status := status).
    + now apply poll_generation_fails.
  - apply poll_generation_gives_up.
  - intros prompt url aspect generation status final k v
      Hcreate <- Hk Hpending Hget Hstate Hfinal Hfstate Hasset.
    now apply generate_luma_video_returns_asset
      with (generation := generation) (status := status) (final := final).
Qed.

Lemma poll_generation_outcomes_witness :
  let processing := mkGeneration "g1" "processing" None None in
  let completed :=
    mkGeneration "g1" "completed" None (Some "https://cdn/video.mp4") in
  let failed := mkGeneration "g1" "failed" (Some "content moderated") None in
  let created := fun (_ : nat) (_ : CreateRequest) => Return processing in
  let slow :=
    mkAsyncLumaAI created
      (fun i _ => if (i <? 3)%nat then Return processing else Return completed) in
  let broken :=
    mkAsyncLumaAI created
      (fun i _ => if (i <? 1)%nat then Return processing else Return failed) in
  let stuck := mkAsyncLumaAI created (fun _ _ => Return processing) in
  poll_generation slow "g1" 30 5 start_world = (Return tt, mkWorld 0 4 15)
  /\ poll_generation broken "g1" 30 5 start_world =
       (Raise (mkExn Exception "Generation failed: content moderated"),
        mkWorld 0 2 5)
  /\ poll_generation stuck "g1" 30 5 start_world =
       (Raise (mkExn Exception "Max attempts reached"), mkWorld 0 30 150)
  /\ generate_luma_video slow (Some "a slow pan") (Some "https://cdn/i.png")
       "16:9" start_world =
       (Return "https://cdn/video.mp4", mkWorld 1 5 15).
Proof.
  intros processing completed failed created slow broken stuck.
  split; [|split; [|split]].
  - refine (proj1 (proj1 (poll_generation_outcomes slow "g1" 30 5 start_world)
                     3%nat completed _ _ _) _); try reflexivity.
    intros i Hi. destruct i as [|[|[|i]]]; try reflexivity. lia.
  - refine (proj2 (proj1 (poll_generation_outcomes broken "g1" 30 5 start_world)
                     1%nat failed _ _ _) _); try reflexivity.
    intros i Hi. destruct i as [|i]; [reflexivity | lia].
  - refine (proj1 (proj2 (poll_generation_outcomes stuck "g1" 30 5 start_world))
              _).
    intros i Hi. reflexivity.
  - refine (proj2 (proj2 (poll_generation_outcomes slow "g1" 30 5 start_world))
              (Some "a slow pan") (Some "https://cdn/i.png") "16:9"
              processing completed completed 3%nat "https://cdn/video.mp4"
              _ _ _ _ _ _ _ _ _); try reflexivity.
    intros i Hi. destruct i as [|[|[|i]]]; try reflexivity. lia.
Defined.

End PollingCaller.

(* ================================================================= *)
(** ** structured_output_model.py: splitting a script *)

Section SplitWords.

Import structured_output_model.

Lemma split_from_run (x : string) :
  forall (word rest : string),
    no_space x = true ->
    split_from word (x ^^ rest) = split_from (word ^^ x) rest.
Proof.
  induction x as [|c x IH]; intros word rest Hx.
  - now rewrite append_nil_r.
  - simpl in Hx. apply andb_true_iff in Hx. destruct Hx as [Hc Hx].
    apply negb_true_iff in Hc.
    change (String c x ^^ rest) with (String c (x ^^ rest)).
    simpl split_from. rewrite Hc, (IH _ _ Hx), append_assoc. reflexivity.
Qed.

Lemma split_from_end (word : string) :
  word <> EmptyString -> split_from word EmptyString = [word].
Proof. destruct word; [congruence | reflexivity]. Qed.

Lemma split_from_space (word rest : string) :
  word <> EmptyString ->
  split_from word (String " " rest) = word :: split_from EmptyString rest.
Proof. destruct word; [congruence | reflexivity]. Qed.

(** Splitting what was joined with single spaces gives the words back. *)
Lemma split_join_words (ws : list string) :
  Forall is_word ws -> split (join " " ws) = ws.
Proof.
  unfold split, join. induction 1 as [|x ws [Hne Hx] Hws IH]; [reflexivity|].
  destruct ws as [|y ws].
  - simpl String.concat. rewrite <- (append_nil_r x) at 1.
    rewrite (split_from_run x _ _ Hx). now apply split_from_end.
  - change (String.concat " " (x :: y :: ws))
      with (x ^^ String " " (String.concat " " (y :: ws))).
    rewrite (split_from_run x _ _ Hx).
    change (EmptyString ^^ x) with x.
    rewrite (split_from_space x _ Hne). now rewrite IH.
Qed.

Lemma no_space_snoc (word : string) (c : ascii) :
  no_space word = true -> isspace c = false ->
  no_space (word ^^ String c EmptyString) = true.
Proof.
  intros Hw Hc. induction word as [|a word IH]; simpl.
  - now rewrite Hc.
  - simpl in Hw. apply andb_true_iff in Hw. destruct Hw as [Ha Hw].
    now rewrite Ha, (IH Hw).
Qed.

Lemma split_from_words (s : string) :
  forall word : string,
    no_space word = true -> Forall is_word (split_from word s).
Proof.
  induction s as [|c s IH]; intros word Hw.
  - destruct word as [|a word]; simpl; [constructor|].
    constructor; [|constructor]. split; [discriminate | exact Hw].
  - simpl. destruct (isspace c) eqn:Hc.
    + destruct word as [|a word].
      * now apply IH.
      * constructor; [split; [discriminate | exact Hw] | now apply IH].
    + apply IH. now apply no_space_snoc.
Qed.

Lemma split_words (s : string) : Forall is_word (split s).
Proof. now apply split_from_words. Qed.

End SplitWords.

Section Slices.

Import structured_output_model.

Context {A : Type}.

Lemma firstn_plus (a b : nat) (l : list A) :
  firstn (a + b) l = firstn a l ++ firstn b (skipn a l).
Proof.
  revert l; induction a as [|a IH]; intros l; [reflexivity|].
  destruct l as [|x l]; simpl.
  - now rewrite firstn_nil.
  - now rewrite IH.
Qed.

Lemma Forall_firstn (P : A -> Prop) (n : nat) (l : list A) :
  Forall P l -> Forall P (firstn n l).
Proof.
  intros H. revert n. induction H as [|x l Hx _ IH]; intros [|n]; simpl;
    try constructor; auto.
Qed.

Lemma Forall_skipn (P : A -> Prop) (n : nat) (l : list A) :
  Forall P l -> Forall P (skipn n l).
Proof.
  intros H. revert n. induction H as [|x l Hx Hl IH]; intros [|n]; simpl;
    try constructor; auto.
Qed.

(** A slice with bounds inside the list. *)
Lemma slice_in_bounds (l : list A) (a b : Z) :
  0 <= a <= b -> b <= len l ->
  slice l a b = firstn (Z.to_nat (b - a)) (skipn (Z.to_nat a) l).
Proof.
  intros Hab Hb. unfold slice, clamp.
  destruct (Z.ltb_spec a 0) as [?|_]; [lia|].
  destruct (Z.ltb_spec b 0) as [?|_]; [lia|].
  now rewrite !Z.min_l by lia.
Qed.

Lemma slice_to_end (l : list A) (a : Z) :
  0 <= a <= len l -> slice l a (len l) = skipn (Z.to_nat a) l.
Proof.
  intros Ha. rewrite slice_in_bounds by lia.
  apply firstn_all2. rewrite length_skipn. unfold len. lia.
Qed.

Lemma slice_Forall (P : A -> Prop) (l : list A) (a b : Z) :
  Forall P l -> Forall P (slice l a b).
Proof.
  intros H. unfold slice. now apply Forall_firstn, Forall_skipn.
Qed.

(** The first [k] chunks of width [p] make up the first [k * p] elements. *)
Lemma concat_chunks (l : list A) (p : Z) (k : nat) :
  0 <= p -> Z.of_nat k * p <= len l ->
  List.concat (map (fun i => slice l (i * p) (i * p + p))
                 (map Z.of_nat (seq 0 k)))
  = firstn (Z.to_nat (Z.of_nat k * p)) l.
Proof.
  intros Hp. induction k as [|k IH]; intros Hk; [reflexivity|].
  rewrite seq_S, !map_app, concat_app, IH by lia.
  cbn [map List.concat Nat.add]. rewrite app_nil_r, slice_in_bounds by lia.
  replace (Z.to_nat (Z.of_nat (S k) * p))
    with (Z.to_nat (Z.of_nat k * p) + Z.to_nat p)%nat by lia.
  rewrite firstn_plus. do 2 f_equal. lia.
Qed.

End Slices.

Section SplitScript.

Import structured_output_model.

(** The parts [split_script] builds for a positive [num_parts]: the chunks
    of [words_per_part] words for all but the last part, and the remaining
    words for the last one. *)
Lemma split_script_parts (script : string) (num_parts : Z) :
  1 <= num_parts ->
  let words := split script in
  let p := len words / num_parts in
  let m := Z.to_nat (num_parts - 1) in
  0 <= p /\ Z.of_nat m * p <= len words
  /\ split_script script num_parts =
       Return (map (fun i => join " " (slice words (i * p) (i * p + p)))
                 (map Z.of_nat (seq 0 m))
               ++ [join " " (skipn (Z.to_nat (Z.of_nat m * p)) words)]).
Proof.
  intros Hn words p m.
  assert (Hp : 0 <= p).
  { apply Z.div_pos; [unfold len; lia | lia]. }
  assert (Hmp : Z.of_nat m * p <= len words).
  { assert (H := Z.mul_div_le (len words) num_parts ltac:(lia)).
    fold p in H. nia. }
  split; [exact Hp|]. split; [exact Hmp|].
  unfold split_script. fold words. fold p.
  destruct (Z.eqb_spec num_parts 0) as [?|_]; [lia|].
  f_equal. unfold range.
  replace (Z.to_nat num_parts) with (S m) by lia.
  rewrite seq_S, !map_app. f_equal.
  - apply map_ext_in. intros i Hi.
    apply in_map_iff in Hi. destruct Hi as (j & <- & Hj).
    apply in_seq in Hj.
    destruct (Z.eqb_spec (Z.of_nat j) (num_parts - 1)) as [?|_]; [lia|].
    reflexivity.
  - cbn [map Nat.add].
    destruct (Z.eqb_spec (Z.of_nat m) (num_parts - 1)) as [_|?]; [|lia].
    cbn [negb]. now rewrite slice_to_end by lia.
Qed.

Lemma map_const_repeat {A B : Type} (b : B) (f : A -> B) (l : list A) :
  (forall a, In a l -> f a = b) -> map f l = repeat b (List.length l).
Proof.
  induction l as [|a l IH]; intros H; [reflexivity|].
  simpl. rewrite (H a) by now left.
  rewrite IH; [reflexivity|]. intros a' Ha'. apply H. now right.
Qed.

(** C10.  For every script and every [num_parts] of at least 1,
    [split_script] returns exactly [num_parts] strings, and the words of the
    parts, read part after part, are the words of the script in their order:
    none lost, none twice, none moved.  When the script has fewer words than
    [num_parts], every part but the last is empty and the last part holds all
    the words. *)
Theorem split_script_keeps_words :
  forall (script : string) (num_parts : Z),
    1 <= num_parts ->
    exists parts : list string,
      split_script script num_parts = Return parts
      /\ len parts = num_parts
      /\ List.concat (map split parts) = split script
      /\ (len (split script) < num_parts ->
          parts = repeat EmptyString (Z.to_nat (num_parts - 1))
                  ++ [join " " (split script)]).
Proof.
  intros script num_parts Hn.
  destruct (split_script_parts script num_parts Hn) as (Hp & Hmp & Hparts).
  set (words := split script) in *.
  set (p := len words / num_parts) in *.
  set (m := Z.to_nat (num_parts - 1)) in *.
  eexists. split; [exact Hparts|]. split; [|split].
  - unfold len. rewrite length_app, !length_map, length_seq. simpl. lia.
  - rewrite map_app, concat_app, map_map.
    rewrite (map_ext_in _ (fun i => slice words (i * p) (i * p + p))).
    + rewrite concat_chunks by assumption.
      cbn [map List.concat]. rewrite app_nil_r.
      rewrite split_join_words
        by (apply Forall_skipn, split_words).
      apply firstn_skipn.
    + intros i _. apply split_join_words, slice_Forall, split_words.
  - intros Hfew.
    assert (Hp0 : p = 0) by (apply Z.div_small; unfold len in *; lia).
    rewrite Hp0, Z.mul_0_r. cbn [Z.to_nat skipn]. f_equal.
    rewrite (map_const_repeat EmptyString).
    + now rewrite length_map, length_seq.
    + intros i _.
      rewrite Z.mul_0_r, slice_in_bounds by (unfold len; lia).
      reflexivity.
Qed.

Lemma split_script_keeps_words_witness :
  exists parts : list string,
    split_script "know  thyself " 3 = Return parts
    /\ len parts = 3
    /\ List.concat (map split parts) = split "know  thyself "
    /\ (len (split "know  thyself ") < 3 ->
        parts = repeat EmptyString (Z.to_nat (3 - 1))
                ++ [join " " (split "know  thyself ")]).
Proof.
  apply (split_script_keeps_words "know  thyself " 3). lia.
Defined.

End SplitScript.

(* ================================================================= *)
(** ** process_video.py: the scene count check *)

Section SceneCount.

Import structured_output_model.
Import process_video.

(** [expected_scenes] is the ceiling of a fifth of the duration. *)
Lemma expected_scenes_is_ceiling (audio_duration : Q) :
  (inject_Z (expected_scenes audio_duration - 1) < audio_duration / inject_Z 5
   /\ audio_duration / inject_Z 5
      <= inject_Z (expected_scenes audio_duration))%Q.
Proof.
  unfold expected_scenes. split; [apply Qceiling_lt | apply Qle_ceiling].
Qed.

Lemma final_videos_app (l l' : list Action) :
  final_videos (l ++ l') = final_videos l ++ final_videos l'.
Proof.
  induction l as [|a l IH]; [reflexivity|].
  destruct a; simpl; now rewrite IH.
Qed.

(** C9.  The number of scenes the main-video pipeline expects is the
    ceiling of a fifth of the audio duration, and that is the number it asks
    the script analysis for.  Once the audio is synthesized, downloaded and
    probed, a script analysis that returns any other number of scenes makes
    the run raise the scene-count error that names both numbers.  The run
    stops there: the log ends with the probe, no image or video is requested
    and no final video is written. *)
Theorem process_main_video_scene_count_check :
  forall (svc : Services) (analyse : string -> Z -> M nat ScriptAnalysis)
         (script : string) (w : World) (audio_url : string)
         (audio_duration : Q) (analysis : ScriptAnalysis) (n' : nat),
    let h1 := log w ++ [Synthesize script] in
    let audio_file_path :=
      "data/videos/temp_audio_" ^^ uuid4 svc h1 ^^ ".mp3" in
    let h2 := h1 ++ [Uuid4] in
    let h3 := h2 ++ [HttpGet audio_url] ++ [WriteFile audio_file_path] in
    let num_images := expected_scenes audio_duration in
    new_ElevenLabsTTSModel svc = Return tt ->
    generate_and_save_audio svc (log w) script = Return audio_url ->
    http_get svc h2 audio_url = Return 200 ->
    ffprobe_duration svc h3 audio_file_path = Return audio_duration ->
    analyse script num_images (completions w) = (Return analysis, n') ->
    len (scenes analysis) <> num_images ->
    (inject_Z (num_images - 1) < audio_duration / inject_Z 5
     /\ audio_duration / inject_Z 5 <= inject_Z num_images)%Q
    /\ process_main_video_with svc analyse script w =
         (Raise (mkExn Exception
                   ("Number of scenes (" ^^ str_int (len (scenes analysis))
                    ^^ ") does not match the expected number of images ("
                    ^^ str_int num_images ^^ ")")),
          mkWorld (h3 ++ [Ffprobe audio_file_path]) n')
    /\ final_videos (log (snd (process_main_video_with svc analyse script w)))
       = final_videos (log w).
Proof.
  intros svc analyse script w audio_url audio_duration analysis n'
    h1 audio_file_path h2 h3 num_images Htts Haudio Hhttp Hprobe Han Hcount.
  assert (Hrun :
    process_main_video_with svc analyse script w =
      (Raise (scene_count_mismatch (len (scenes analysis)) num_images),
       mkWorld (h3 ++ [Ffprobe audio_file_path]) n')).
  { unfold process_main_video_with.
    unfold bind at 1. unfold lift at 1. rewrite Htts.
    unfold bind at 1. unfold call at 1. rewrite Haudio.
    unfold bind at 1. unfold fresh_uuid at 1, call at 1. cbn [log completions].
    fold h1. fold audio_file_path.
    unfold bind at 1. unfold download_file at 1, bind at 1, call at 1.
    cbn [log completions]. fold h2. rewrite Hhttp. cbn [Z.eqb Pos.eqb negb].
    unfold call at 1. cbn [log completions].
    unfold bind at 1. unfold get_audio_duration, call at 1.
    cbn [log completions].
    replace ((h2 ++ [HttpGet audio_url]) ++ [WriteFile audio_file_path])
      with h3 by (unfold h3; now rewrite app_assoc).
    rewrite Hprobe. fold num_images.
    unfold bind at 1, try_except_when, with_completions.
    cbn [log completions]. rewrite Han.
    apply Z.eqb_neq in Hcount. rewrite Hcount. reflexivity. }
  split; [apply expected_scenes_is_ceiling|]. split; [exact Hrun|].
  rewrite Hrun. cbn [snd log]. unfold h3, h2, h1.
  rewrite !final_videos_app. simpl. now rewrite !app_nil_r.
Qed.

Lemma process_main_video_scene_count_check_witness :
  let svc :=
    mkServices (Return tt)
      (fun _ _ => Return "https://r2.example/a.mp3")
      (fun _ _ => Return 200)
      (fun _ _ => Return (25 # 2)%Q)
      (fun _ _ => Return "https://img.example/i.png")
      (fun _ _ _ _ => Return "https://luma.example/v.mp4")
      (fun _ _ _ => Return tt)
      (fun _ _ _ _ => Return tt)
      (fun h => str_int (len h)) in
  let scene := mkSceneDescription "an agora at dawn" "the crowd gathers" in
  let two_scenes : string -> Z -> M nat ScriptAnalysis :=
    fun _ _ => ret (mkScriptAnalysis [scene; scene]) in
  let w := mkWorld [] 0 in
  process_main_video_with svc two_scenes "Know thyself." w =
    (Raise (mkExn Exception
              "Number of scenes (2) does not match the expected number of images (3)"),
     mkWorld [Synthesize "Know thyself."; Uuid4;
              HttpGet "https://r2.example/a.mp3";
              WriteFile "data/videos/temp_audio_1.mp3";
              Ffprobe "data/videos/temp_audio_1.mp3"] 0)
  /\ final_videos
       (log (snd (process_main_video_with svc two_scenes "Know thyself." w)))
     = [].
Proof.
  intros svc scene two_scenes w.
  refine (proj2 (process_main_video_scene_count_check svc two_scenes
                   "Know thyself." w "https://r2.example/a.mp3" (25 # 2)%Q
                   (mkScriptAnalysis [scene; scene]) 0%nat _ _ _ _ _ _));
    try reflexivity.
  vm_compute. discriminate.
Defined.

(** With the repository's own analysis the check cannot fire for a positive
    count: [extract_descriptions] asks for one scene per part and
    [split_script] makes as many parts as it is asked for. *)
Lemma describe_parts_length (client : OpenAI) (script_parts : list string) :
  forall (idx : Z) (n n' : nat) (l : list (option SceneDescription)),
    describe_parts client idx script_parts n = (Return l, n') ->
    List.length l = List.length script_parts.
Proof.
  induction script_parts as [|part rest IH]; intros idx n n' l H.
  - inversion H; reflexivity.
  - simpl in H. unfold bind at 1 in H.
    destruct (completions_parse client n system_message
                (user_message idx part)) as [sd|e]; [|discriminate].
    unfold bind at 1 in H.
    destruct (describe_parts client (idx + 1) rest (S n))
      as [[more|e] n''] eqn:Hrest; [|discriminate].
    inversion H; subst. simpl. f_equal. exact (IH _ _ _ _ Hrest).
Qed.

Lemma validated_length (l : list (option SceneDescription)) :
  forall l' : list SceneDescription,
    validated l = Return l' -> List.length l' = List.length l.
Proof.
  induction l as [|[s|] l IH]; intros l' H; simpl in H.
  - inversion H; reflexivity.
  - destruct (validated l) as [l0|e]; [|discriminate].
    inversion H; subst. simpl. f_equal. now apply IH.
  - discriminate.
Qed.

Lemma extract_descriptions_count (client : OpenAI) (script : string)
    (num_images : Z) (n n' : nat) (analysis : ScriptAnalysis) :
  1 <= num_images ->
  extract_descriptions client script num_images n = (Return analysis, n') ->
  len (scenes analysis) = num_images.
Proof.
  intros Hn H.
  destruct (split_script_parts script num_images Hn) as (_ & _ & Hparts).
  unfold extract_descriptions, bind at 1, lift at 1 in H.
  rewrite Hparts in H. unfold bind at 1 in H.
  match type of H with
  | context [describe_parts client 0 ?ps n] =>
      destruct (describe_parts client 0 ps n) as [[l|e] n''] eqn:Hd;
        [|discriminate];
      apply describe_parts_length in Hd
  end.
  unfold lift, new_ScriptAnalysis in H.
  destruct (validated l) as [l'|e] eqn:Hv; [|discriminate].
  apply validated_length in Hv. inversion H; subst. simpl.
  unfold len. rewrite Hv, Hd, length_app, !length_map, length_seq.
  simpl. lia.
Qed.

(** A probed duration of zero asks for zero parts, and the division in
    [split_script] raises before any scene is described. *)
Lemma extract_descriptions_zero_parts (client : OpenAI) (script : string)
    (n : nat) :
  extract_descriptions client script 0 n =
    (Raise (mkExn ZeroDivisionError "integer division or modulo by zero"), n).
Proof. reflexivity. Qed.

End SceneCount.

(* ================================================================= *)
(** ** Worked runs *)

Section WorkedRuns.

Import agentic_rag.
Import structured_output_model.

Example split_discards_whitespace :
  split ("  know " ^^ nl ^^ "thyself  ") = ["know"; "thyself"].
Proof. reflexivity. Qed.

Example split_script_two_parts :
  split_script "a b c d e" 2 = Return ["a b"; "c d e"].
Proof. reflexivity. Qed.

Example split_script_more_parts_than_words :
  split_script "a" 3 = Return [""; ""; "a"].
Proof. reflexivity. Qed.

Example split_script_zero_parts :
  split_script "a b" 0 =
    Raise (mkExn ZeroDivisionError "integer division or modulo by zero").
Proof. reflexivity. Qed.

Example split_script_negative_parts : split_script "a b" (-2) = Return [].
Proof. reflexivity. Qed.

Example slice_clamps : slice [1; 2; 3] (-2) 10 = [2; 3].
Proof. reflexivity. Qed.

(** The run of section 8: topic "free will", N = 2, the completion answers
    Q1 and Q2, the index answers A1 for Q1 and raises for Q2. *)
Example free_will_scenario :
  let boom := mkExn (OtherError "TimeoutError") "timed out" in
  let index :=
    mkLlamaCloudIndex
      (fun q => if String.eqb q "Q1" then Return "A1" else Raise boom) in
  let client :=
    agentic_rag.mkOpenAI
      (fun _ _ =>
         Return (mkSubQuestions [mkSubQuestion "Q1"; mkSubQuestion "Q2"])) in
  let self := mkRAGWorkflow index client 2 in
  let r1 := snd (generate_sub_questions self "free will" fresh_run) in
  let a1 := mkSubAnswerEvent "Q1" "A1" in
  let a2 := mkSubAnswerEvent "Q2" "Error querying LlamaCloud: timed out" in
  sent_events r1 = [mkSubQuestionsEvent [mkSubQuestion "Q1"];
                    mkSubQuestionsEvent [mkSubQuestion "Q2"]]
  /\ fst (query_llama_cloud self (mkSubQuestionsEvent [mkSubQuestion "Q1"]) r1)
     = Return a1
  /\ fst (query_llama_cloud self (mkSubQuestionsEvent [mkSubQuestion "Q2"]) r1)
     = Return a2
  /\ fst (deliver self [a1; a2] r1) =
       Return [None;
               Some (mkStopEvent
                       ("Q: Q1" ^^ nl ^^ "A: A1" ^^ nl ^^ nl ^^ "Q: Q2" ^^ nl
                        ^^ "A: Error querying LlamaCloud: timed out"))].
Proof. vm_compute. repeat split. Qed.

(** An event without any question makes the retrieval step raise: the index
    lookup [ev.questions[0]] is outside the [try]. *)
Example query_llama_cloud_no_question :
  forall (self : RAGWorkflow) (r : Run),
    query_llama_cloud self (mkSubQuestionsEvent []) r =
      (Raise (mkExn IndexError "list index out of range"), r).
Proof. reflexivity. Qed.

End WorkedRuns.

(* ================================================================= *)
(** ** agentic_rag.py: further properties of the steps *)

Section RetrieverMore.

Import agentic_rag.

(** X1.  Whatever the index does, the retrieval step does not raise on an
    event that holds at least one question: it returns one answer event and
    leaves the buffer and the sent events alone.  The answer carries the
    first question of the event, or "Unknown Question" when that question is
    empty.  The index is queried at most once, and only with that first
    question. *)
Theorem query_llama_cloud_never_raises :
  forall (self : RAGWorkflow) (ev : SubQuestionsEvent) (query : string)
         (others : list SubQuestion) (r : Run),
    questions ev = mkSubQuestion query :: others ->
    exists (answer : SubAnswerEvent) (r' : Run),
      query_llama_cloud self ev r = (Return answer, r')
      /\ events_buffer r' = events_buffer r
      /\ sent_events r' = sent_events r
      /\ ((query = EmptyString /\ question answer = "Unknown Question"
           /\ index_queries r' = index_queries r)
          \/ (query <> EmptyString /\ question answer = query
              /\ index_queries r' = index_queries r ++ [query])).
Proof.
  intros self ev query others r Hev.
  unfold query_llama_cloud, bind at 1, first_question. rewrite Hev.
  cbn [ret sq_question].
  destruct query as [|c query]; cbn [truthy negb].
  - exists (mkSubAnswerEvent "Unknown Question" "Error: Empty query"), r.
    repeat split. left. repeat split.
  - unfold try_except, bind, query_index.
    destruct (query_engine_query (llama_cloud_index self) (String c query))
      as [response|e]; eexists; eexists; (split; [reflexivity|]);
      repeat split; right; repeat split; discriminate.
Qed.

Lemma query_llama_cloud_never_raises_witness :
  let self :=
    mkRAGWorkflow
      (mkLlamaCloudIndex (fun _ => Raise (mkExn ValueError "bad index")))
      (mkOpenAI (fun _ _ => Return (mkSubQuestions []))) 2 in
  let ev := mkSubQuestionsEvent [mkSubQuestion "Q1"; mkSubQuestion "Q2"] in
  exists (answer : SubAnswerEvent) (r' : Run),
    query_llama_cloud self ev fresh_run = (Return answer, r')
    /\ events_buffer r' = []
    /\ sent_events r' = []
    /\ (("Q1" = EmptyString /\ question answer = "Unknown Question"
         /\ index_queries r' = [])
        \/ ("Q1" <> EmptyString /\ question answer = "Q1"
            /\ index_queries r' = [] ++ ["Q1"])).
Proof.
  intros self ev.
  apply (query_llama_cloud_never_raises self ev "Q1" [mkSubQuestion "Q2"]
           fresh_run).
  reflexivity.
Defined.

(** X2.  The containment has one hole: an event without any question makes
    the step raise [IndexError], because [ev.questions[0]] is read before the
    [try]; the index is not queried. *)
Theorem query_llama_cloud_no_question_raises :
  forall (self : RAGWorkflow) (ev : SubQuestionsEvent) (r : Run),
    questions ev = [] ->
    query_llama_cloud self ev r =
      (Raise (mkExn IndexError "list index out of range"), r).
Proof.
  intros self ev r Hev.
  unfold query_llama_cloud, bind, first_question. now rewrite Hev.
Qed.

Lemma query_llama_cloud_no_question_raises_witness :
  let self :=
    mkRAGWorkflow (mkLlamaCloudIndex (fun q => Return q))
      (mkOpenAI (fun _ _ => Return (mkSubQuestions []))) 0 in
  query_llama_cloud self (mkSubQuestionsEvent []) fresh_run =
    (Raise (mkExn IndexError "list index out of range"), fresh_run).
Proof.
  intros self.
  apply (query_llama_cloud_no_question_raises self (mkSubQuestionsEvent [])
           fresh_run).
  reflexivity.
Defined.

End RetrieverMore.

Section GeneratorMore.

Import agentic_rag.

(** X3.  The generator sends nothing unless the count check passes: whenever
    it raises, the run is left as it was, and the exception is either the
    completion's own or the count mismatch of the parsed answer. *)
Theorem generate_sub_questions_raise_sends_nothing :
  forall (self : RAGWorkflow) (query : string) (e : exn) (r r' : Run),
    generate_sub_questions self query r = (Raise e, r') ->
    r' = r
    /\ (completions_parse (openai_client self)
          (system_message (num_questions self))
          (user_message (num_questions self) query) = Raise e
        \/ exists parsed : SubQuestions,
             completions_parse (openai_client self)
               (system_message (num_questions self))
               (user_message (num_questions self) query) = Return parsed
             /\ len (sqs_questions parsed) <> num_questions self
             /\ e = count_mismatch (num_questions self)
                      (len (sqs_questions parsed))).
Proof.
  intros self query e r r' Hrun.
  destruct (completions_parse (openai_client self)
              (system_message (num_questions self))
              (user_message (num_questions self) query))
    as [parsed|e0] eqn:Hparse.
  - rewrite (generate_sub_questions_after_parse self query parsed r Hparse)
      in Hrun.
    destruct (Z.eqb_spec (len (sqs_questions parsed)) (num_questions self))
      as [Hn|Hn]; [discriminate|].
    inversion Hrun; subst. split; [reflexivity|].
    right. exists parsed. repeat split; assumption.
  - unfold generate_sub_questions, bind, lift in Hrun.
    rewrite Hparse in Hrun. inversion Hrun; subst.
    split; [reflexivity | now left].
Qed.

Lemma generate_sub_questions_raise_sends_nothing_witness :
  let busy := mkExn (OtherError "RateLimitError") "rate limit reached" in
  let self :=
    mkRAGWorkflow (mkLlamaCloudIndex (fun q => Return q))
      (mkOpenAI (fun _ _ => Raise busy)) 3 in
  let r := mkRun [] [mkSubQuestionsEvent [mkSubQuestion "earlier"]] [] in
  r = r
  /\ (@Raise SubQuestions busy = Raise busy
      \/ exists parsed : SubQuestions,
           @Raise SubQuestions busy = Return parsed
           /\ len (sqs_questions parsed) <> 3
           /\ busy = count_mismatch 3 (len (sqs_questions parsed))).
Proof.
  intros busy self r.
  apply (generate_sub_questions_raise_sends_nothing self "free will" busy r r).
  reflexivity.
Defined.

(** X4.  The batch event that the generator returns is answered for its
    first question only.  When that event reaches the retrieval step, the
    step queries the index with the first sub-question, which was also sent
    on its own as the first single-question event, and with no other
    question of the batch. *)
Theorem returned_batch_repeats_first_question :
  forall (self : RAGWorkflow) (query : string) (ev : SubQuestionsEvent)
         (r r' : Run) (q : string) (others : list SubQuestion),
    generate_sub_questions self query r = (Return ev, r') ->
    questions ev = mkSubQuestion q :: others ->
    q <> EmptyString ->
    (exists rest : list SubQuestionsEvent,
       sent_events r' =
         sent_events r ++ mkSubQuestionsEvent [mkSubQuestion q] :: rest)
    /\ exists answer : SubAnswerEvent,
         query_llama_cloud self ev r' =
           (Return answer,
            mkRun (events_buffer r') (sent_events r')
              (index_queries r' ++ [q]))
         /\ question answer = q.
Proof.
  intros self query ev r r' q others Hrun Hev Hq.
  split.
  - destruct (completions_parse (openai_client self)
                (system_message (num_questions self))
                (user_message (num_questions self) query))
      as [parsed|e0] eqn:Hparse.
    + rewrite (generate_sub_questions_after_parse self query parsed r Hparse)
        in Hrun.
      destruct (len (sqs_questions parsed) =? num_questions self);
        [|discriminate].
      inversion Hrun; subst; clear Hrun. simpl in Hev. rewrite Hev.
      simpl. eexists. reflexivity.
    + unfold generate_sub_questions, bind, lift in Hrun.
      rewrite Hparse in Hrun. discriminate.
  - unfold query_llama_cloud, bind at 1, first_question. rewrite Hev.
    cbn [ret sq_question]. rewrite (truthy_nonempty q Hq). cbn [negb].
    unfold try_except, bind, query_index.
    destruct (query_engine_query (llama_cloud_index self) q) as [resp|e];
      eexists; split; reflexivity.
Qed.

Lemma returned_batch_repeats_first_question_witness :
  let two := mkSubQuestions [mkSubQuestion "Q1"; mkSubQuestion "Q2"] in
  let self :=
    mkRAGWorkflow (mkLlamaCloudIndex (fun q => Return ("about " ^^ q)))
      (mkOpenAI (fun _ _ => Return two)) 2 in
  let ev := mkSubQuestionsEvent (sqs_questions two) in
  let r' :=
    mkRun [] [mkSubQuestionsEvent [mkSubQuestion "Q1"];
              mkSubQuestionsEvent [mkSubQuestion "Q2"]] [] in
  (exists rest : list SubQuestionsEvent,
     sent_events r' = [] ++ mkSubQuestionsEvent [mkSubQuestion "Q1"] :: rest)
  /\ exists answer : SubAnswerEvent,
       query_llama_cloud self ev r' =
         (Return answer,
          mkRun (events_buffer r') (sent_events r')
            (index_queries r' ++ ["Q1"]))
       /\ question answer = "Q1".
Proof.
  intros two self ev r'.
  apply (returned_batch_repeats_first_question self "free will" ev fresh_run
           r' "Q1" [mkSubQuestion "Q2"]);
    [reflexivity | reflexivity | discriminate].
Defined.

End GeneratorMore.

Section TopLevelMore.

Import agentic_rag.

(** X5.  [process_query] raises exactly when its set-up fails: the API key
    is unset or empty (the [EnvironmentError], raised before any client is
    built), or one of the two client constructors raises (its exception
    passes unchanged).  What the workflow run does never makes it raise. *)
Theorem process_query_raises_iff_setup_fails :
  forall (env : Env) (user_query : string) (num_subquestions : Z) (e : exn),
    process_query env user_query num_subquestions = Raise e <->
    ((getenv_LLAMAINDEX_API_KEY env = None
      \/ getenv_LLAMAINDEX_API_KEY env = Some EmptyString)
     /\ e = missing_api_key)
    \/ exists api_key : string,
         getenv_LLAMAINDEX_API_KEY env = Some api_key
         /\ api_key <> EmptyString
         /\ (new_LlamaCloudIndex env api_key = Raise e
             \/ ((exists index, new_LlamaCloudIndex env api_key = Return index)
                 /\ new_OpenAI env = Raise e)).
Proof.
  intros env user_query n e. unfold process_query.
  destruct (getenv_LLAMAINDEX_API_KEY env) as [[|c key]|] eqn:Hkey;
    cbn [truthy negb].
  - split.
    + intros H; inversion H; subst. left. split; [now right | reflexivity].
    + intros [[_ ->]|(k & Hk & Hne & _)]; [reflexivity|].
      inversion Hk; subst. congruence.
  - split.
    + intros H. right. exists (String c key).
      split; [reflexivity|]. split; [discriminate|].
      destruct (new_LlamaCloudIndex env (String c key)) as [index|e1].
      * destruct (new_OpenAI env) as [client|e2].
        -- destruct (workflow_run env _ user_query); discriminate.
        -- inversion H; subst. right. split; [now exists index | reflexivity].
      * inversion H; subst. now left.
    + intros [[[H|H] _]|(k & Hk & Hne & Hfail)]; try discriminate.
      inversion Hk; subst k.
      destruct Hfail as [Hidx|[[index Hidx] Hcli]]; rewrite Hidx;
        [reflexivity | now rewrite Hcli].
  - split.
    + intros H; inversion H; subst. left. split; [now left | reflexivity].
    + intros [[_ ->]|(k & Hk & _)]; [reflexivity | discriminate].
Qed.

End TopLevelMore.

(* ================================================================= *)
(** ** img_to_video.py: what the loop and the decorator can do *)

Section PollingEffects.

Import img_to_video.

Variable client : AsyncLumaAI.
Variable generation_id : string.
Variable delay : Z.

Lemma poll_loop_effects (n : nat) :
  forall (w w' : World) (res : result unit),
    poll_loop client generation_id delay n w = (res, w') ->
    creates w' = creates w
    /\ exists g : nat,
         (g <= n)%nat /\ gets w' = (gets w + g)%nat
         /\ ((res = Return tt /\ (1 <= g)%nat
              /\ slept w' = slept w + (Z.of_nat g - 1) * delay
              /\ exists status,
                   generations_get client (gets w + g - 1) generation_id
                     = Return status
                   /\ state status = "completed")
             \/ ((1 <= g)%nat
                 /\ slept w' = slept w + (Z.of_nat g - 1) * delay
                 /\ exists status,
                      generations_get client (gets w + g - 1) generation_id
                        = Return status
                      /\ state status = "failed"
                      /\ res = Raise (generation_failed status))
             \/ (res = Raise (mkExn Exception "Max attempts reached")
                 /\ g = n /\ slept w' = slept w + Z.of_nat g * delay)).
Proof.
  induction n as [|n IH]; intros w w' res Hrun.
  - simpl in Hrun. inversion Hrun; subst. split; [reflexivity|].
    exists 0%nat. split; [lia|]. split; [lia|].
    right; right. repeat split. simpl. lia.
  - simpl poll_loop in Hrun. unfold get in Hrun.
    destruct (generations_get client (gets w) generation_id)
      as [status|e] eqn:Hget.
    + destruct (String.eqb (state status) "completed") eqn:Hc.
      * inversion Hrun; subst. simpl. split; [reflexivity|].
        exists 1%nat. repeat split; try lia.
        left. repeat split; try lia.
        exists status. split.
        -- now replace (gets w + 1 - 1)%nat with (gets w) by lia.
        -- now apply String.eqb_eq.
      * destruct (String.eqb (state status) "failed") eqn:Hf.
        -- inversion Hrun; subst. simpl. split; [reflexivity|].
           exists 1%nat. repeat split; try lia.
           right; left. repeat split; try lia.
           exists status. split; [|split].
           ++ now replace (gets w + 1 - 1)%nat with (gets w) by lia.
           ++ now apply String.eqb_eq.
           ++ reflexivity.
        -- unfold bind, sleep in Hrun. cbn [creates gets slept] in Hrun.
           apply IH in Hrun. cbn [creates gets slept] in Hrun.
           destruct Hrun as (Hcr & g & Hg & Hgets & Hcases).
           split; [exact Hcr|]. exists (S g).
           split; [lia|]. split; [lia|].
           replace (gets w + S g - 1)%nat with (S (gets w) + g - 1)%nat
             by lia.
           destruct Hcases as [(-> & H1 & Hs & Hst)|[(H1 & Hs & Hst)|(-> & -> & Hs)]].
           ++ left. repeat split; try lia.
              destruct Hst as (st & Hst1 & Hst2). exists st.
              now split.
           ++ right; left. repeat split; try lia.
              destruct Hst as (st & Hst1 & Hst2 & Hst3). exists st.
              repeat split; assumption.
           ++ right; right. repeat split; lia.
    + unfold bind, sleep in Hrun. cbn [creates gets slept] in Hrun.
      apply IH in Hrun. cbn [creates gets slept] in Hrun.
      destruct Hrun as (Hcr & g & Hg & Hgets & Hcases).
      split; [exact Hcr|]. exists (S g).
      split; [lia|]. split; [lia|].
      replace (gets w + S g - 1)%nat with (S (gets w) + g - 1)%nat by lia.
      destruct Hcases as [(-> & H1 & Hs & Hst)|[(H1 & Hs & Hst)|(-> & -> & Hs)]].
      * left. repeat split; try lia.
        destruct Hst as (st & Hst1 & Hst2). exists st. now split.
      * right; left. repeat split; try lia.
        destruct Hst as (st & Hst1 & Hst2 & Hst3). exists st.
        repeat split; assumption.
      * right; right. repeat split; lia.
Qed.

End PollingEffects.

Section PollingMore.

Import img_to_video.

(** X6.  Every run of [poll_generation] ends in one of three ways, and the
    number of status requests never exceeds [max_attempts]:
    - it returns, after [g >= 1] requests and [g - 1] waits, and the last
      request reported "completed";
    - it raises "Generation failed: <reason>", after [g >= 1] requests and
      [g - 1] waits, and the last request reported "failed";
    - it raises "Max attempts reached", after exactly [max_attempts]
      requests, each followed by a wait.
    An exception raised by a status request is never passed on, and no
    generation is created. *)
Theorem poll_generation_effects :
  forall (client : AsyncLumaAI) (generation_id : string)
         (max_attempts delay : Z) (w w' : World) (res : result unit),
    poll_generation client generation_id max_attempts delay w = (res, w') ->
    creates w' = creates w
    /\ exists g : nat,
         Z.of_nat g <= Z.max 0 max_attempts
         /\ gets w' = (gets w + g)%nat
         /\ ((res = Return tt /\ (1 <= g)%nat
              /\ slept w' = slept w + (Z.of_nat g - 1) * delay
              /\ exists status,
                   generations_get client (gets w + g - 1) generation_id
                     = Return status
                   /\ state status = "completed")
             \/ ((1 <= g)%nat
                 /\ slept w' = slept w + (Z.of_nat g - 1) * delay
                 /\ exists status,
                      generations_get client (gets w + g - 1) generation_id
                        = Return status
                      /\ state status = "failed"
                      /\ res = Raise (generation_failed status))
             \/ (res = Raise (mkExn Exception "Max attempts reached")
                 /\ Z.of_nat g = Z.max 0 max_attempts
                 /\ slept w' = slept w + Z.of_nat g * delay)).
Proof.
  intros client generation_id max_attempts delay w w' res Hrun.
  apply poll_loop_effects in Hrun.
  destruct Hrun as (Hcr & g & Hg & Hgets & Hcases).
  split; [exact Hcr|]. exists g. split; [lia|]. split; [exact Hgets|].
  destruct Hcases as [H|[H|(Hres & Hgn & Hs)]]; [now left | now right; left |].
  right; right. repeat split; try assumption. lia.
Qed.

Lemma poll_generation_effects_witness :
  let flaky :=
    mkAsyncLumaAI
      (fun _ _ => Return (mkGeneration "g1" "queued" None None))
      (fun i _ =>
         if (i <? 2)%nat
         then Raise (mkExn (OtherError "APIConnectionError") "reset")
         else Return (mkGeneration "g1" "completed" None (Some "v.mp4"))) in
  creates (mkWorld 0 3 10) = creates start_world
  /\ exists g : nat,
       Z.of_nat g <= Z.max 0 30
       /\ gets (mkWorld 0 3 10) = (gets start_world + g)%nat
       /\ ((Return tt = Return tt /\ (1 <= g)%nat
            /\ slept (mkWorld 0 3 10)
               = slept start_world + (Z.of_nat g - 1) * 5
            /\ exists status,
                 generations_get flaky (gets start_world + g - 1) "g1"
                   = Return status
                 /\ state status = "completed")
           \/ ((1 <= g)%nat
               /\ slept (mkWorld 0 3 10)
                  = slept start_world + (Z.of_nat g - 1) * 5
               /\ exists status,
                    generations_get flaky (gets start_world + g - 1) "g1"
                      = Return status
                    /\ state status = "failed"
                    /\ Return tt = Raise (generation_failed status))
           \/ (Return tt = Raise (mkExn Exception "Max attempts reached")
               /\ Z.of_nat g = Z.max 0 30
               /\ slept (mkWorld 0 3 10)
                  = slept start_world + Z.of_nat g * 5)).
Proof.
  intros flaky.
  apply (poll_generation_effects flaky "g1" 30 5 start_world
           (mkWorld 0 3 10) (Return tt)).
  reflexivity.
Defined.




Lemma generate_luma_video_once_returns (client : AsyncLumaAI)
    (prompt start_image_url : option string) (aspect_ratio : string)
    (w : World) (generation status final : Generation) (k : nat) (v : string) :
  (forall req, generations_create client (creates w) req = Return generation) ->
  Z.of_nat k < MAX_ATTEMPTS ->
  (forall i : nat, (i < k)%nat ->
     keeps_polling (generations_get client (gets w + i) (id generation))
       = true) ->
  generations_get client (gets w + k) (id generation) = Return status ->
  state status = "completed" ->
  generations_get client (gets w + S k) (id generation) = Return final ->
  (state final = "completed" -> assets_video final = Some v ->
   generate_luma_video_once client prompt start_image_url aspect_ratio w =
     (Return v,
      mkWorld (S (creates w)) (gets w + S (S k))
        (slept w + Z.of_nat k * POLL_INTERVAL)))
  /\ (state final <> "completed" ->
      generate_luma_video_once client prompt start_image_url aspect_ratio w =
        (Raise (mkExn Exception
                  ("Generation failed with state: " ^^ state final)),
         mkWorld (S (creates w)) (gets w + S (S k))
           (slept w + Z.of_nat k * POLL_INTERVAL))).
Proof.
  intros Hcreate Hk Hpending Hget Hstate Hfinal.
  assert (Hrun :
    generate_luma_video_once client prompt start_image_url aspect_ratio w =
      (if String.eqb (state final) "completed"
       then assets_of final
       else raise (mkExn Exception
                     ("Generation failed with state: " ^^ state final)))
        (mkWorld (S (creates w)) (gets w + S (S k))
           (slept w + Z.of_nat k * POLL_INTERVAL))).
  { unfold generate_luma_video_once, bind at 1, create.
    rewrite Hcreate. unfold bind at 1.
    rewrite (poll_generation_completes client (id generation) POLL_INTERVAL
               MAX_ATTEMPTS _ k status); try assumption.
    unfold bind, get. cbn [creates gets slept].
    rewrite Hfinal. now rewrite (Nat.add_succ_r (gets w) (S k)). }
  rewrite Hrun. split.
  - intros Hc Hasset. rewrite Hc. cbn. unfold assets_of. now rewrite Hasset.
  - intros Hc. apply String.eqb_neq in Hc. now rewrite Hc.
Qed.

(** X8.  The final status is read with a second request after the loop has
    seen "completed".  When that second request reports another state, the
    attempt raises "Generation failed with state: <state>" although the loop
    had returned normally. *)
Theorem generate_luma_video_once_rereads_state :
  forall (client : AsyncLumaAI) (prompt start_image_url : option string)
         (aspect_ratio : string) (w : World)
         (generation status final : Generation) (k : nat),
    (forall req,
       generations_create client (creates w) req = Return generation) ->
    Z.of_nat k < MAX_ATTEMPTS ->
    (forall i : nat, (i < k)%nat ->
       keeps_polling (generations_get client (gets w + i) (id generation))
         = true) ->
    generations_get client (gets w + k) (id generation) = Return status ->
    state status = "completed" ->
    generations_get client (gets w + S k) (id generation) = Return final ->
    state final <> "completed" ->
    generate_luma_video_once client prompt start_image_url aspect_ratio w =
      (Raise (mkExn Exception
                ("Generation failed with state: " ^^ state final)),
       mkWorld (S (creates w)) (gets w + S (S k))
         (slept w + Z.of_nat k * POLL_INTERVAL)).
Proof.
  intros client prompt url aspect w generation status final k
    Hcreate Hk Hpending Hget Hstate Hfinal Hflip.
  now apply (proj2 (generate_luma_video_once_returns client prompt url aspect
                      w generation status final k EmptyString
                      Hcreate Hk Hpending Hget Hstate Hfinal)).
Qed.

Lemma generate_luma_video_once_rereads_state_witness :
  let queued := mkGeneration "g1" "queued" None None in
  let completed := mkGeneration "g1" "completed" None (Some "v.mp4") in
  let flipping :=
    mkAsyncLumaAI (fun _ _ => Return queued)
      (fun i _ => if (i =? 0)%nat then Return completed else Return queued) in
  generate_luma_video_once flipping None None "16:9" start_world =
    (Raise (mkExn Exception "Generation failed with state: queued"),
     mkWorld 1 2 0).
Proof.
  intros queued completed flipping.
  apply (generate_luma_video_once_rereads_state flipping None None "16:9"
           start_world queued completed queued 0);
    try reflexivity; try discriminate.
  intros i Hi. lia.
Defined.

(** X9.  A job reported as failed does not fail [generate_luma_video] on its
    own: the decorator waits two seconds and starts over with a new
    generation.  When the first job fails on its first poll and the second
    job is completed, the call returns the second job's asset after two
    creation requests. *)
Theorem generate_luma_video_recreates_failed_job :
  forall (client : AsyncLumaAI) (prompt start_image_url : option string)
         (aspect_ratio : string) (w : World)
         (first failed second final : Generation) (v : string),
    (forall req, generations_create client (creates w) req = Return first) ->
    generations_get client (gets w) (id first) = Return failed ->
    state failed = "failed" ->
    (forall req,
       generations_create client (S (creates w)) req = Return second) ->
    generations_get client (S (gets w)) (id second) = Return final ->
    generations_get client (S (S (gets w))) (id second) = Return final ->
    state final = "completed" ->
    assets_video final = Some v ->
    generate_luma_video client prompt start_image_url aspect_ratio w =
      (Return v, mkWorld (creates w + 2) (gets w + 3) (slept w + 2)).
Proof.
  intros client prompt url aspect w first failed second final v
    Hc1 Hg1 Hfailed Hc2 Hg2 Hg3 Hdone Hasset.
  unfold generate_luma_video.
  change (retry 5 2 ?body w)
    with (try_except body (fun _ => sleep 2 ;;; retry 4 2 body) w).
  unfold try_except.
  assert (Hfirst :
    generate_luma_video_once client prompt url aspect w =
      (Raise (generation_failed failed),
       mkWorld (S (creates w)) (S (gets w)) (slept w))).
  { unfold generate_luma_video_once, bind at 1, create.
    rewrite Hc1. unfold bind at 1.
    rewrite (poll_generation_fails client (id first) POLL_INTERVAL
               MAX_ATTEMPTS _ 0 failed);
      cbn [creates gets slept];
      try (rewrite Nat.add_0_r); try assumption;
      try (unfold MAX_ATTEMPTS; lia); try (intros i Hi; lia).
    f_equal. f_equal; lia. }
  rewrite Hfirst. unfold bind, sleep. cbn [creates gets slept].
  set (w1 := mkWorld (S (creates w)) (S (gets w)) (slept w + 2)).
  apply retry_returns.
  destruct (generate_luma_video_once_returns client prompt url aspect w1
              second final final 0 v) as [Hok _].
  - exact Hc2.
  - unfold MAX_ATTEMPTS; lia.
  - intros i Hi; lia.
  - cbn [w1 gets]. rewrite Nat.add_0_r. exact Hg2.
  - exact Hdone.
  - cbn [w1 gets]. now replace (S (gets w) + 1)%nat with (S (S (gets w))) by lia.
  - rewrite (Hok Hdone Hasset). cbn [w1 creates gets slept].
    f_equal. f_equal; lia.
Qed.

Lemma generate_luma_video_recreates_failed_job_witness :
  let first := mkGeneration "g1" "queued" None None in
  let failed := mkGeneration "g1" "failed" (Some "moderation") None in
  let second := mkGeneration "g2" "queued" None None in
  let final := mkGeneration "g2" "completed" None (Some "v2.mp4") in
  let client :=
    mkAsyncLumaAI
      (fun n _ => if (n =? 0)%nat then Return first else Return second)
      (fun i _ => if (i =? 0)%nat then Return failed else Return final) in
  generate_luma_video client (Some "a slow pan") (Some "i.png") "16:9"
    start_world =
    (Return "v2.mp4", mkWorld 2 3 2).
Proof.
  intros first failed second final client.
  apply (generate_luma_video_recreates_failed_job client (Some "a slow pan")
           (Some "i.png") "16:9" start_world first failed second final
           "v2.mp4");
    reflexivity.
Defined.



End PollingMore.

(* ================================================================= *)
(** ** structured_output_model.py: the parts and the analysis *)

Section SplitScriptMore.

Import structured_output_model.

Lemma length_slice_in_bounds {A : Type} (l : list A) (a b : Z) :
  0 <= a <= b -> b <= len l -> len (slice l a b) = b - a.
Proof.
  intros Hab Hb. rewrite slice_in_bounds by assumption.
  unfold len in *. rewrite firstn_length_le; [lia|].
  rewrite length_skipn. lia.
Qed.

(** X11.  For [num_parts >= 1] every part but the last holds exactly
    [num_words // num_parts] words, and the last part holds all the words
    that are left: at least as many as the others and fewer than
    [num_parts] more. *)
Theorem split_script_part_sizes :
  forall (script : string) (num_parts : Z),
    1 <= num_parts ->
    exists parts : list string,
      split_script script num_parts = Return parts
      /\ (forall i : nat,
            Z.of_nat i < num_parts - 1 ->
            len (split (nth i parts EmptyString))
              = len (split script) / num_parts)
      /\ len (split (nth (Z.to_nat (num_parts - 1)) parts EmptyString))
           = len (split script)
             - (num_parts - 1) * (len (split script) / num_parts)
      /\ len (split script) / num_parts
           <= len (split (nth (Z.to_nat (num_parts - 1)) parts EmptyString))
           < len (split script) / num_parts + num_parts.
Proof.
  intros script num_parts Hn.
  destruct (split_script_parts script num_parts Hn) as (Hp & Hmp & Hparts).
  set (words := split script) in *.
  set (p := len words / num_parts) in *.
  set (m := Z.to_nat (num_parts - 1)) in *.
  assert (Hm : Z.of_nat m = num_parts - 1) by (unfold m; lia).
  assert (Hlast :
    len (split (join " " (skipn (Z.to_nat (Z.of_nat m * p)) words)))
      = len words - (num_parts - 1) * p).
  { rewrite split_join_words by (apply Forall_skipn, split_words).
    unfold len in *. rewrite length_skipn.
    rewrite Nat2Z.inj_sub by lia. rewrite Z2Nat.id by nia.
    now rewrite Hm. }
  eexists. split; [exact Hparts|]. split; [|split].
  - intros i Hi.
    rewrite app_nth1 by (rewrite !length_map, length_seq; lia).
    rewrite (nth_indep _ EmptyString
               ((fun j => join " " (slice words (j * p) (j * p + p))) 0))
      by (rewrite !length_map, length_seq; lia).
    rewrite (map_nth (fun j => join " " (slice words (j * p) (j * p + p)))).
    rewrite (nth_indep _ 0 (Z.of_nat 0)) by (rewrite length_map, length_seq; lia).
    rewrite (map_nth Z.of_nat), seq_nth by lia.
    rewrite split_join_words by (apply slice_Forall, split_words).
    rewrite length_slice_in_bounds; nia.
  - rewrite app_nth2; rewrite !length_map, length_seq; [|lia].
    rewrite Nat.sub_diag. exact Hlast.
  - rewrite app_nth2; rewrite !length_map, length_seq; [|lia].
    rewrite Nat.sub_diag. cbn [nth]. rewrite Hlast.
    assert (Hdiv := Z.div_mod (len words) num_parts ltac:(lia)).
    assert (Hmod := Z.mod_pos_bound (len words) num_parts ltac:(lia)).
    fold p in Hdiv. nia.
Qed.

Lemma split_script_part_sizes_witness :
  exists parts : list string,
    split_script "one two three four five six seven" 3 = Return parts
    /\ (forall i : nat,
          Z.of_nat i < 3 - 1 ->
          len (split (nth i parts EmptyString))
            = len (split "one two three four five six seven") / 3)
    /\ len (split (nth (Z.to_nat (3 - 1)) parts EmptyString))
         = len (split "one two three four five six seven")
           - (3 - 1) * (len (split "one two three four five six seven") / 3)
    /\ len (split "one two three four five six seven") / 3
         <= len (split (nth (Z.to_nat (3 - 1)) parts EmptyString))
         < len (split "one two three four five six seven") / 3 + 3.
Proof.
  apply (split_script_part_sizes "one two three four five six seven" 3). lia.
Defined.

(** X12.  The parts are whitespace-normalised: every returned part is its
    own words joined by single spaces, so line breaks, tabs and runs of
    blanks of the script do not reach the parts. *)
Theorem split_script_parts_normalised :
  forall (script : string) (num_parts : Z) (parts : list string)
         (part : string),
    split_script script num_parts = Return parts ->
    In part parts ->
    part = join " " (split part).
Proof.
  intros script num_parts parts part Hrun Hin.
  unfold split_script in Hrun.
  destruct (num_parts =? 0); [discriminate|].
  inversion Hrun; subst; clear Hrun.
  apply in_map_iff in Hin. destruct Hin as (i & <- & _).
  now rewrite split_join_words by (apply slice_Forall, split_words).
Qed.

Lemma split_script_parts_normalised_witness :
  "know thyself" = join " " (split "know thyself").
Proof.
  apply (split_script_parts_normalised
           ("know" ^^ nl ^^ "   thyself" ^^ nl) 1 ["know thyself"]
           "know thyself");
    [reflexivity | now left].
Defined.

(** X13.  The two counts below 1: zero parts raise [ZeroDivisionError],
    whatever the script, and a negative count returns the empty list. *)
Theorem split_script_non_positive :
  forall script : string,
    split_script script 0 =
      Raise (mkExn ZeroDivisionError "integer division or modulo by zero")
    /\ forall num_parts : Z,
         num_parts < 0 -> split_script script num_parts = Return [].
Proof.
  intros script. split; [reflexivity|].
  intros num_parts Hneg. unfold split_script.
  destruct (Z.eqb_spec num_parts 0) as [?|_]; [lia|].
  unfold range. now replace (Z.to_nat num_parts) with 0%nat by lia.
Qed.

Lemma split_script_non_positive_witness :
  split_script "know thyself" (-3) = Return [].
Proof.
  apply (proj2 (split_script_non_positive "know thyself") (-3)). lia.
Defined.

End SplitScriptMore.

Section ExtractDescriptions.

Import structured_output_model.

Variable client : OpenAI.

Lemma describe_parts_requests (script_parts : list string) :
  forall (idx : Z) (n n' : nat) (l : list (option SceneDescription)),
    describe_parts client idx script_parts n = (Return l, n') ->
    n' = (n + List.length script_parts)%nat.
Proof.
  induction script_parts as [|part rest IH]; intros idx n n' l H.
  - inversion H. simpl. lia.
  - simpl in H. unfold bind at 1 in H.
    destruct (completions_parse client n system_message
                (user_message idx part)) as [sd|e]; [|discriminate].
    unfold bind at 1 in H.
    destruct (describe_parts client (idx + 1) rest (S n))
      as [[more|e] n''] eqn:Hrest; [|discriminate].
    inversion H; subst. apply IH in Hrest. simpl. lia.
Qed.

Lemma describe_parts_stops (e : exn) (script_parts : list string) :
  forall (idx : Z) (n j : nat),
    (j < List.length script_parts)%nat ->
    (forall (i : nat) (u : string),
       (i < j)%nat ->
       exists o, completions_parse client (n + i) system_message u = Return o) ->
    (forall u : string,
       completions_parse client (n + j) system_message u = Raise e) ->
    describe_parts client idx script_parts n = (Raise e, S (n + j)).
Proof.
  induction script_parts as [|part rest IH]; intros idx n j Hj Hbefore Hraise.
  - simpl in Hj. lia.
  - simpl. unfold bind at 1.
    destruct j as [|j].
    + rewrite <- (Nat.add_0_r n) at 1. rewrite Hraise.
      now rewrite Nat.add_0_r.
    + destruct (Hbefore 0%nat (user_message idx part) ltac:(lia)) as [o Ho].
      rewrite Nat.add_0_r in Ho. rewrite Ho. unfold bind at 1.
      rewrite (IH (idx + 1) (S n) j).
      * now rewrite Nat.add_succ_r.
      * simpl in Hj. lia.
      * intros i u Hi. replace (S n + i)%nat with (n + S i)%nat by lia.
        apply Hbefore. lia.
      * intros u. replace (S n + j)%nat with (n + S j)%nat by lia.
        apply Hraise.
Qed.



Lemma split_script_length (script : string) (num_parts : Z)
    (parts : list string) :
  1 <= num_parts ->
  split_script script num_parts = Return parts ->
  List.length parts = Z.to_nat num_parts.
Proof.
  intros Hn H.
  destruct (split_script_parts script num_parts Hn) as (_ & _ & Hparts).
  rewrite Hparts in H. inversion H; subst.
  rewrite length_app, !length_map, length_seq. simpl. lia.
Qed.

End ExtractDescriptions.

Section ExtractDescriptionsMore.

Import structured_output_model.

(** X14.  For a positive count, whenever [extract_descriptions] returns,
    the analysis holds exactly [num_images] scenes and exactly [num_images]
    completions were requested, one per part. *)
Theorem extract_descriptions_one_request_per_scene :
  forall (client : OpenAI) (script : string) (num_images : Z) (n n' : nat)
         (analysis : ScriptAnalysis),
    1 <= num_images ->
    extract_descriptions client script num_images n = (Return analysis, n') ->
    len (scenes analysis) = num_images
    /\ Z.of_nat n' = Z.of_nat n + num_images.
Proof.
  intros client script num_images n n' analysis Hn H.
  split; [exact (extract_descriptions_count client script num_images n n'
                   analysis Hn H)|].
  unfold extract_descriptions, bind at 1, lift at 1 in H.
  destruct (split_script script num_images) as [parts|e] eqn:Hsplit;
    [|discriminate].
  apply (split_script_length script num_images parts Hn) in Hsplit.
  unfold bind at 1 in H.
  destruct (describe_parts client 0 parts n) as [[l|e] n''] eqn:Hd;
    [|discriminate].
  apply describe_parts_requests in Hd.
  unfold lift in H. destruct (new_ScriptAnalysis l); inversion H; subst.
  lia.
Qed.

Lemma extract_descriptions_one_request_per_scene_witness :
  let scene := mkSceneDescription "an agora at dawn" "the crowd gathers" in
  let client := mkOpenAI (fun _ _ _ => Return (Some scene)) in
  len (scenes (mkScriptAnalysis [scene; scene])) = 2
  /\ Z.of_nat 2 = Z.of_nat 0 + 2.
Proof.
  intros scene client.
  apply (extract_descriptions_one_request_per_scene client
           "know thyself and nothing in excess" 2 0%nat 2%nat
           (mkScriptAnalysis [scene; scene]));
    [lia | reflexivity].
Defined.

(** X15.  The loop stops at the first completion that raises: when the
    completions for the parts before part [j] answer and the one for part
    [j] raises, [extract_descriptions] raises that same exception after
    [j + 1] requests, and the remaining parts are not requested. *)
Theorem extract_descriptions_stops_at_first_raise :
  forall (client : OpenAI) (script : string) (num_images : Z) (n j : nat)
         (e : exn),
    Z.of_nat j < num_images ->
    (forall (i : nat) (u : string),
       (i < j)%nat ->
       exists o, completions_parse client (n + i) system_message u = Return o) ->
    (forall u : string,
       completions_parse client (n + j) system_message u = Raise e) ->
    extract_descriptions client script num_images n = (Raise e, S (n + j)).
Proof.
  intros client script num_images n j e Hj Hbefore Hraise.
  assert (Hn : 1 <= num_images) by lia.
  unfold extract_descriptions, bind at 1, lift at 1.
  destruct (split_script script num_images) as [parts|e0] eqn:Hsplit.
  - apply (split_script_length script num_images parts Hn) in Hsplit.
    unfold bind at 1.
    rewrite (describe_parts_stops client e parts 0 n j);
      [reflexivity | lia | assumption | assumption].
  - destruct (split_script_parts script num_images Hn) as (_ & _ & Hparts).
    congruence.
Qed.

Lemma extract_descriptions_stops_at_first_raise_witness :
  let scene := mkSceneDescription "an agora at dawn" "the crowd gathers" in
  let busy := mkExn (OtherError "RateLimitError") "rate limit reached" in
  let client :=
    mkOpenAI (fun i _ _ => if (i <? 1)%nat then Return (Some scene)
                           else Raise busy) in
  extract_descriptions client "know thyself and nothing in excess" 3 0%nat =
    (Raise busy, 2%nat).
Proof.
  intros scene busy client.
  apply (extract_descriptions_stops_at_first_raise client
           "know thyself and nothing in excess" 3 0%nat 1%nat busy).
  - lia.
  - intros i u Hi. exists (Some scene).
    destruct i as [|i]; [reflexivity | lia].
  - intros u. reflexivity.
Defined.



End ExtractDescriptionsMore.

(* ================================================================= *)
(** ** process_video.py: the main-video pipeline *)

Section MainVideo.

Import structured_output_model.
Import process_video.

Lemma bind_returns {S A B : Type} (m : M S A) (k : A -> M S B)
    (s s' : S) (a : A) :
  m s = (Return a, s') -> bind m k s = k a s'.
Proof. intros H. unfold bind. now rewrite H. Qed.

Lemma bind_raises {S A B : Type} (m : M S A) (k : A -> M S B)
    (s s' : S) (e : exn) :
  m s = (Raise e, s') -> bind m k s = (Raise e, s').
Proof. intros H. unfold bind. now rewrite H. Qed.

Lemma call_answer {A : Type} (a : Action) (answer : list Action -> result A)
    (w : World) :
  call a answer w = (answer (log w), mkWorld (log w ++ [a]) (completions w)).
Proof. reflexivity. Qed.

Lemma images_requested_app (l l' : list Action) :
  images_requested (l ++ l') = (images_requested l + images_requested l')%nat.
Proof.
  induction l as [|a l IH]; [reflexivity|].
  destruct a; simpl; now rewrite IH.
Qed.

Lemma clips_requested_app (l l' : list Action) :
  clips_requested (l ++ l') = (clips_requested l + clips_requested l')%nat.
Proof.
  induction l as [|a l IH]; [reflexivity|].
  destruct a; simpl; now rewrite IH.
Qed.

Lemma download_file_ok (svc : Services) (url dest_path : string) (w : World) :
  http_get svc (log w) url = Return 200 ->
  download_file svc url dest_path w =
    (Return tt,
     mkWorld (log w ++ [HttpGet url; WriteFile dest_path]) (completions w)).
Proof.
  intros H. unfold download_file.
  rewrite (bind_returns _ _ w _ 200) by (rewrite call_answer, H; reflexivity).
  cbn [Z.eqb Pos.eqb negb]. rewrite call_answer. cbn [log completions].
  now rewrite <- app_assoc.
Qed.

Lemma download_file_refused (svc : Services) (url dest_path : string)
    (w : World) (status : Z) :
  http_get svc (log w) url = Return status ->
  status <> 200 ->
  download_file svc url dest_path w =
    (Raise (mkExn Exception
              ("Failed to download file from " ^^ url
               ^^ ", status code " ^^ str_int status)),
     mkWorld (log w ++ [HttpGet url]) (completions w)).
Proof.
  intros H Hs. unfold download_file.
  rewrite (bind_returns _ _ w _ status)
    by (rewrite call_answer, H; reflexivity).
  apply Z.eqb_neq in Hs. now rewrite Hs.
Qed.

(** The pipeline up to the probe of the audio, and what runs after it. *)
Lemma process_main_video_with_after_probe (svc : Services)
    (analyse : string -> Z -> M nat ScriptAnalysis) (script : string)
    (w : World) (audio_url : string) (audio_duration : Q) :
  let h1 := log w ++ [Synthesize script] in
  let audio_file_path :=
    "data/videos/temp_audio_" ^^ uuid4 svc h1 ^^ ".mp3" in
  let h2 := h1 ++ [Uuid4] in
  let h3 := h2 ++ [HttpGet audio_url] ++ [WriteFile audio_file_path] in
  let num_images := expected_scenes audio_duration in
  new_ElevenLabsTTSModel svc = Return tt ->
  generate_and_save_audio svc (log w) script = Return audio_url ->
  http_get svc h2 audio_url = Return 200 ->
  ffprobe_duration svc h3 audio_file_path = Return audio_duration ->
  process_main_video_with svc analyse script w =
    (script_analysis <-
       try_except_when is_validation_error
         (with_completions (analyse script num_images))
         (fun ve =>
            raise (mkExn Exception
                     ("Script analysis failed: " ^^ str_exn ve))) ;;
     if negb (len (scenes script_analysis) =? num_images)
     then raise (scene_count_mismatch (len (scenes script_analysis))
                   num_images)
     else
       video_paths <- process_scenes svc (scenes script_analysis) ;;
       u1 <- fresh_uuid svc ;;
       let combined_video_path := "data/videos/combined_" ^^ u1 ^^ ".mp4" in
       combine_videos svc video_paths combined_video_path ;;;
       u2 <- fresh_uuid svc ;;
       let final_video_path := "data/final_video/final_" ^^ u2 ^^ ".mp4" in
       add_audio_to_video svc combined_video_path audio_file_path
         final_video_path ;;;
       ret final_video_path)
      (mkWorld (h3 ++ [Ffprobe audio_file_path]) (completions w)).
Proof.
  intros h1 audio_file_path h2 h3 num_images Htts Haudio Hhttp Hprobe.
  unfold process_main_video_with.
  rewrite (bind_returns _ _ w w tt) by (unfold lift; now rewrite Htts).
  rewrite (bind_returns _ _ w (mkWorld h1 (completions w)) audio_url)
    by (rewrite call_answer, Haudio; reflexivity).
  rewrite (bind_returns _ _ _ (mkWorld h2 (completions w)) (uuid4 svc h1))
    by reflexivity.
  fold audio_file_path.
  rewrite (bind_returns _ _ _ (mkWorld h3 (completions w)) tt).
  2:{ rewrite download_file_ok by exact Hhttp. reflexivity. }
  rewrite (bind_returns _ _ _
             (mkWorld (h3 ++ [Ffprobe audio_file_path]) (completions w))
             audio_duration).
  2:{ unfold get_audio_duration. rewrite call_answer. cbn [log completions].
      now rewrite Hprobe. }
  reflexivity.
Qed.

(** X17.  An audio whose probed duration asks for zero scenes, such as an
    empty one, does not reach the scene count check: with the repository's
    own analysis the run raises the [ZeroDivisionError] of [split_script]
    right after the probe, before any completion is requested. *)
Theorem process_main_video_zero_scenes :
  forall (svc : Services) (client : OpenAI) (script : string) (w : World)
         (audio_url : string) (audio_duration : Q),
    let h1 := log w ++ [Synthesize script] in
    let audio_file_path :=
      "data/videos/temp_audio_" ^^ uuid4 svc h1 ^^ ".mp3" in
    let h2 := h1 ++ [Uuid4] in
    let h3 := h2 ++ [HttpGet audio_url] ++ [WriteFile audio_file_path] in
    new_ElevenLabsTTSModel svc = Return tt ->
    generate_and_save_audio svc (log w) script = Return audio_url ->
    http_get svc h2 audio_url = Return 200 ->
    ffprobe_duration svc h3 audio_file_path = Return audio_duration ->
    expected_scenes audio_duration = 0 ->
    process_main_video svc client script w =
      (Raise (mkExn ZeroDivisionError "integer division or modulo by zero"),
       mkWorld (h3 ++ [Ffprobe audio_file_path]) (completions w)).
Proof.
  intros svc client script w audio_url audio_duration h1 audio_file_path
    h2 h3 Htts Haudio Hhttp Hprobe Hzero.
  unfold process_main_video.
  rewrite (process_main_video_with_after_probe svc _ script w audio_url
             audio_duration Htts Haudio Hhttp Hprobe).
  rewrite Hzero. reflexivity.
Qed.

Lemma process_main_video_zero_scenes_witness :
  let svc :=
    mkServices (Return tt)
      (fun _ _ => Return "https://r2.example/a.mp3")
      (fun _ _ => Return 200)
      (fun _ _ => Return 0%Q)
      (fun _ _ => Return "https://img.example/i.png")
      (fun _ _ _ _ => Return "https://luma.example/v.mp4")
      (fun _ _ _ => Return tt)
      (fun _ _ _ _ => Return tt)
      (fun h => str_int (len h)) in
  let client := mkOpenAI (fun _ _ _ => Return None) in
  process_main_video svc client "" (mkWorld [] 0) =
    (Raise (mkExn ZeroDivisionError "integer division or modulo by zero"),
     mkWorld [Synthesize ""; Uuid4; HttpGet "https://r2.example/a.mp3";
              WriteFile "data/videos/temp_audio_1.mp3";
              Ffprobe "data/videos/temp_audio_1.mp3"] 0).
Proof.
  intros svc client.
  apply (process_main_video_zero_scenes svc client "" (mkWorld [] 0)
           "https://r2.example/a.mp3" 0%Q);
    reflexivity.
Defined.

(** X18.  What the pipeline does with an exception of the script analysis:
    a [ValidationError] is raised again as a plain exception whose message
    is "Script analysis failed: " followed by the original message; every
    other exception passes unchanged.  Either way the run ends there. *)
Theorem process_main_video_with_analysis_raises :
  forall (svc : Services) (analyse : string -> Z -> M nat ScriptAnalysis)
         (script : string) (w : World) (audio_url : string)
         (audio_duration : Q) (e : exn) (n' : nat),
    let h1 := log w ++ [Synthesize script] in
    let audio_file_path :=
      "data/videos/temp_audio_" ^^ uuid4 svc h1 ^^ ".mp3" in
    let h2 := h1 ++ [Uuid4] in
    let h3 := h2 ++ [HttpGet audio_url] ++ [WriteFile audio_file_path] in
    new_ElevenLabsTTSModel svc = Return tt ->
    generate_and_save_audio svc (log w) script = Return audio_url ->
    http_get svc h2 audio_url = Return 200 ->
    ffprobe_duration svc h3 audio_file_path = Return audio_duration ->
    analyse script (expected_scenes audio_duration) (completions w)
      = (Raise e, n') ->
    process_main_video_with svc analyse script w =
      (Raise (if is_validation_error e
              then mkExn Exception ("Script analysis failed: " ^^ str_exn e)
              else e),
       mkWorld (h3 ++ [Ffprobe audio_file_path]) n').
Proof.
  intros svc analyse script w audio_url audio_duration e n' h1
    audio_file_path h2 h3 Htts Haudio Hhttp Hprobe Han.
  rewrite (process_main_video_with_after_probe svc _ script w audio_url
             audio_duration Htts Haudio Hhttp Hprobe).
  unfold bind, try_except_when, with_completions. cbn [log completions].
  rewrite Han. now destruct (is_validation_error e).
Qed.

Lemma process_main_video_with_analysis_raises_witness :
  let svc :=
    mkServices (Return tt)
      (fun _ _ => Return "https://r2.example/a.mp3")
      (fun _ _ => Return 200)
      (fun _ _ => Return (25 # 2)%Q)
      (fun _ _ => Return "https://img.example/i.png")
      (fun _ _ _ _ => Return "https://luma.example/v.mp4")
      (fun _ _ _ => Return tt)
      (fun _ _ _ _ => Return tt)
      (fun h => str_int (len h)) in
  let client := mkOpenAI (fun _ _ _ => Return None) in
  process_main_video_with svc (extract_descriptions client)
    "know thyself and nothing in excess" (mkWorld [] 0) =
    (Raise (mkExn Exception
              "Script analysis failed: 1 validation error for ScriptAnalysis"),
     mkWorld [Synthesize "know thyself and nothing in excess"; Uuid4;
              HttpGet "https://r2.example/a.mp3";
              WriteFile "data/videos/temp_audio_1.mp3";
              Ffprobe "data/videos/temp_audio_1.mp3"] 3).
Proof.
  intros svc client.
  apply (process_main_video_with_analysis_raises svc
           (extract_descriptions client)
           "know thyself and nothing in excess" (mkWorld [] 0)
           "https://r2.example/a.mp3" (25 # 2)%Q
           (mkExn ValidationError "1 validation error for ScriptAnalysis")
           3%nat);
    reflexivity.
Defined.

(** X19.  When the download of the synthesized audio is answered with a
    status other than 200, the run raises "Failed to download file from
    <url>, status code <status>".  Nothing is written, probed or analysed,
    and no image or clip is requested. *)
Theorem process_main_video_with_download_refused :
  forall (svc : Services) (analyse : string -> Z -> M nat ScriptAnalysis)
         (script : string) (w : World) (audio_url : string) (status : Z),
    let h2 := log w ++ [Synthesize script] ++ [Uuid4] in
    new_ElevenLabsTTSModel svc = Return tt ->
    generate_and_save_audio svc (log w) script = Return audio_url ->
    http_get svc h2 audio_url = Return status ->
    status <> 200 ->
    process_main_video_with svc analyse script w =
      (Raise (mkExn Exception
                ("Failed to download file from " ^^ audio_url
                 ^^ ", status code " ^^ str_int status)),
       mkWorld (h2 ++ [HttpGet audio_url]) (completions w)).
Proof.
  intros svc analyse script w audio_url status h2 Htts Haudio Hhttp Hstatus.
  unfold process_main_video_with.
  rewrite (bind_returns _ _ w w tt) by (unfold lift; now rewrite Htts).
  rewrite (bind_returns _ _ w
             (mkWorld (log w ++ [Synthesize script]) (completions w))
             audio_url)
    by (rewrite call_answer, Haudio; reflexivity).
  rewrite (bind_returns _ _ _ (mkWorld h2 (completions w))
             (uuid4 svc (log w ++ [Synthesize script]))).
  2:{ unfold fresh_uuid. rewrite call_answer. cbn [log completions].
      unfold h2. now rewrite app_assoc. }
  apply bind_raises.
  now rewrite (download_file_refused svc audio_url _ _ status).
Qed.

Lemma process_main_video_with_download_refused_witness :
  let svc :=
    mkServices (Return tt)
      (fun _ _ => Return "https://r2.example/a.mp3")
      (fun _ _ => Return 403)
      (fun _ _ => Return (25 # 2)%Q)
      (fun _ _ => Return "https://img.example/i.png")
      (fun _ _ _ _ => Return "https://luma.example/v.mp4")
      (fun _ _ _ => Return tt)
      (fun _ _ _ _ => Return tt)
      (fun h => str_int (len h)) in
  let client := mkOpenAI (fun _ _ _ => Return None) in
  process_main_video_with svc (extract_descriptions client) "know thyself"
    (mkWorld [] 0) =
    (Raise (mkExn Exception
              "Failed to download file from https://r2.example/a.mp3, status code 403"),
     mkWorld [Synthesize "know thyself"; Uuid4;
              HttpGet "https://r2.example/a.mp3"] 0).
Proof.
  intros svc client.
  apply (process_main_video_with_download_refused svc
           (extract_descriptions client) "know thyself" (mkWorld [] 0)
           "https://r2.example/a.mp3" 403);
    try reflexivity.
  vm_compute. discriminate.
Defined.

Lemma process_scenes_reliable (svc : Services) :
  reliable svc ->
  forall (todo : list SceneDescription) (w : World),
    exists (video_paths : list string) (w' : World),
      process_scenes svc todo w = (Return video_paths, w')
      /\ completions w' = completions w
      /\ final_videos (log w') = final_videos (log w)
      /\ images_requested (log w')
         = (images_requested (log w) + List.length todo)%nat
      /\ clips_requested (log w')
         = (clips_requested (log w) + List.length todo)%nat.
Proof.
  intros (Htts & Haudio & Hhttp & Himg & Hluma & Hconcat & Hadd).
  induction todo as [|scene rest IH]; intros w.
  - exists [], w. cbn. repeat split; lia.
  - cbn [process_scenes]. unfold bind at 1. rewrite call_answer.
    destruct (Himg (log w) (image_description scene)) as [url ->].
    unfold bind at 1. unfold fresh_uuid at 1. rewrite call_answer.
    cbn [log completions].
    unfold bind at 1. rewrite download_file_ok by apply Hhttp.
    cbn [log completions].
    unfold bind at 1. unfold fresh_uuid at 1. rewrite call_answer.
    cbn [log completions].
    unfold bind at 1. rewrite call_answer. cbn [log completions].
    match goal with
    | |- context [generate_luma_video svc ?h ?a ?b ?c] =>
        destruct (Hluma h a b c) as [clip ->]
    end.
    unfold bind at 1. rewrite download_file_ok by apply Hhttp.
    cbn [log completions].
    unfold bind at 1.
    match goal with
    | |- context [process_scenes svc rest ?w6] =>
        destruct (IH w6) as (paths & w' & -> & Hc & Hf & Hi & Hv)
    end.
    cbn [log completions] in Hc, Hf, Hi, Hv.
    eexists; eexists. split; [reflexivity|].
    repeat rewrite final_videos_app in Hf.
    repeat rewrite images_requested_app in Hi.
    repeat rewrite clips_requested_app in Hv.
    cbn in Hf, Hi, Hv. rewrite !app_nil_r in Hf.
    repeat split; [exact Hc | exact Hf | |]; cbn [List.length]; lia.
Qed.

Lemma validated_all_set (l : list SceneDescription) :
  validated (map Some l) = Return l.
Proof.
  induction l as [|s l IH]; [reflexivity|]. simpl. now rewrite IH.
Qed.

Lemma describe_parts_all_set (client : OpenAI) (script_parts : list string) :
  (forall (i : nat) (s u : string),
     exists scene, completions_parse client i s u = Return (Some scene)) ->
  forall (idx : Z) (n : nat),
    exists l : list SceneDescription,
      describe_parts client idx script_parts n =
        (Return (map Some l), (n + List.length script_parts)%nat)
      /\ List.length l = List.length script_parts.
Proof.
  intros Hall. induction script_parts as [|part rest IH]; intros idx n.
  - exists []. split; [simpl; now rewrite Nat.add_0_r | reflexivity].
  - destruct (Hall n system_message (user_message idx part)) as [scene Hs].
    destruct (IH (idx + 1) (S n)) as (l & Hl & Hlen).
    exists (scene :: l). split.
    + simpl. unfold bind at 1. rewrite Hs. unfold bind at 1. rewrite Hl.
      unfold ret. f_equal. lia.
    + simpl. now rewrite Hlen.
Qed.

Lemma extract_descriptions_returns (client : OpenAI) (script : string)
    (num_images : Z) (n : nat) :
  1 <= num_images ->
  (forall (i : nat) (s u : string),
     exists scene, completions_parse client i s u = Return (Some scene)) ->
  exists analysis : ScriptAnalysis,
    extract_descriptions client script num_images n =
      (Return analysis, (n + Z.to_nat num_images)%nat)
    /\ len (scenes analysis) = num_images.
Proof.
  intros Hn Hall.
  destruct (split_script script num_images) as [parts|e] eqn:Hsplit.
  - assert (Hlen := split_script_length script num_images parts Hn Hsplit).
    destruct (describe_parts_all_set client parts Hall 0 n) as (l & Hl & Hll).
    exists (mkScriptAnalysis l). split.
    + unfold extract_descriptions, bind at 1, lift at 1. rewrite Hsplit.
      unfold bind at 1. rewrite Hl. unfold lift, new_ScriptAnalysis.
      now rewrite validated_all_set, Hlen.
    + simpl. unfold len. lia.
  - destruct (split_script_parts script num_images Hn) as (_ & _ & Hparts).
    congruence.
Qed.

Lemma expected_scenes_positive (audio_duration : Q) :
  (0 < audio_duration)%Q -> 1 <= expected_scenes audio_duration.
Proof.
  intros Hd. unfold expected_scenes.
  assert (H5 : (0 < audio_duration / inject_Z 5)%Q).
  { apply Qlt_shift_div_l; [reflexivity|]. now rewrite Qmult_0_l. }
  assert (Hle := Qle_ceiling (audio_duration / inject_Z 5)).
  assert (Hlt : (0 < inject_Z (Qceiling (audio_duration / inject_Z 5)))%Q)
    by (eapply Qlt_le_trans; eassumption).
  change 0%Q with (inject_Z 0) in Hlt. rewrite <- Zlt_Qlt in Hlt. lia.
Qed.

(** X20.  With collaborators that answer every call, an audio of positive
    duration and completions that all come back set, [process_main_video]
    returns the path "data/final_video/final_<uuid>.mp4" of the one final
    video it has written, after requesting one completion, one image and
    one clip for each of the ceil(duration / 5) scenes. *)
Theorem process_main_video_completes :
  forall (svc : Services) (client : OpenAI) (script : string) (w : World)
         (audio_duration : Q),
    reliable svc ->
    (forall h p, ffprobe_duration svc h p = Return audio_duration) ->
    (0 < audio_duration)%Q ->
    (forall (i : nat) (s u : string),
       exists scene, completions_parse client i s u = Return (Some scene)) ->
    exists (u : string) (w' : World),
      process_main_video svc client script w =
        (Return ("data/final_video/final_" ^^ u ^^ ".mp4"), w')
      /\ final_videos (log w')
         = final_videos (log w) ++ ["data/final_video/final_" ^^ u ^^ ".mp4"]
      /\ Z.of_nat (completions w')
         = Z.of_nat (completions w) + expected_scenes audio_duration
      /\ Z.of_nat (images_requested (log w'))
         = Z.of_nat (images_requested (log w))
           + expected_scenes audio_duration
      /\ Z.of_nat (clips_requested (log w'))
         = Z.of_nat (clips_requested (log w))
           + expected_scenes audio_duration.
Proof.
  intros svc client script w audio_duration Hrel Hprobe Hpos Hset.
  assert (Hk := expected_scenes_positive audio_duration Hpos).
  pose proof Hrel as (Htts & Haudio & Hhttp & Himg & Hluma & Hconcat & Hadd).
  destruct (Haudio (log w) script) as [audio_url Hurl].
  unfold process_main_video.
  rewrite (process_main_video_with_after_probe svc _ script w audio_url
             audio_duration Htts Hurl (Hhttp _ _) (Hprobe _ _)).
  set (k := expected_scenes audio_duration) in *.
  destruct (extract_descriptions_returns client script k (completions w)
              Hk Hset) as (analysis & Han & Hlen).
  unfold bind at 1. unfold try_except_when, with_completions.
  cbn [log completions]. rewrite Han, Hlen, Z.eqb_refl. cbn [negb].
  unfold bind at 1.
  match goal with
  | |- context [process_scenes svc (scenes analysis) ?w0] =>
      destruct (process_scenes_reliable svc Hrel (scenes analysis) w0)
        as (paths & w1 & -> & Hc & Hf & Hi & Hv)
  end.
  cbn [log completions] in Hc, Hf, Hi, Hv.
  unfold bind at 1. unfold fresh_uuid at 1. rewrite call_answer.
  unfold bind at 1. unfold combine_videos. rewrite call_answer.
  cbn [log completions]. rewrite Hconcat.
  unfold bind at 1. unfold fresh_uuid at 1. rewrite call_answer.
  cbn [log completions].
  unfold bind at 1. unfold add_audio_to_video. rewrite call_answer.
  cbn [log completions]. rewrite Hadd. unfold ret.
  eexists; eexists. split; [reflexivity|]. cbn [log completions].
  repeat rewrite final_videos_app. repeat rewrite images_requested_app.
  repeat rewrite clips_requested_app.
  rewrite Hf, Hi, Hv, Hc.
  repeat rewrite final_videos_app. repeat rewrite images_requested_app.
  repeat rewrite clips_requested_app.
  cbn [final_videos images_requested clips_requested app].
  unfold len in Hlen.
  repeat split; try (rewrite !app_nil_r; reflexivity); lia.
Qed.

Lemma process_main_video_completes_witness :
  let svc :=
    mkServices (Return tt)
      (fun _ _ => Return "https://r2.example/a.mp3")
      (fun _ _ => Return 200)
      (fun _ _ => Return (25 # 2)%Q)
      (fun _ _ => Return "https://img.example/i.png")
      (fun _ _ _ _ => Return "https://luma.example/v.mp4")
      (fun _ _ _ => Return tt)
      (fun _ _ _ _ => Return tt)
      (fun h => str_int (len h)) in
  let scene := mkSceneDescription "an agora at dawn" "the crowd gathers" in
  let client := mkOpenAI (fun _ _ _ => Return (Some scene)) in
  let w := mkWorld [] 0 in
  exists (u : string) (w' : World),
    process_main_video svc client "know thyself and nothing in excess" w =
      (Return ("data/final_video/final_" ^^ u ^^ ".mp4"), w')
    /\ final_videos (log w')
       = final_videos (log w) ++ ["data/final_video/final_" ^^ u ^^ ".mp4"]
    /\ Z.of_nat (completions w')
       = Z.of_nat (completions w) + expected_scenes (25 # 2)
    /\ Z.of_nat (images_requested (log w'))
       = Z.of_nat (images_requested (log w)) + expected_scenes (25 # 2)
    /\ Z.of_nat (clips_requested (log w'))
       = Z.of_nat (clips_requested (log w)) + expected_scenes (25 # 2).
Proof.
  intros svc scene client w.
  apply (process_main_video_completes svc client
           "know thyself and nothing in excess" w (25 # 2)%Q).
  - repeat split; intros; try reflexivity; eexists; reflexivity.
  - intros h p. reflexivity.
  - reflexivity.
  - intros i s u. exists scene. reflexivity.
Defined.

End MainVideo.

(* ================================================================= *)
(** ** transcription.py: timestamps, subtitle files and derived paths *)

Section TimestampFields.

Import transcription.

(** X21.  The four fields of a timestamp recompose to the number of
    milliseconds they were taken from, for every integer, and the minutes,
    seconds and milliseconds always lie in their ranges; the hours carry the
    sign. *)
Theorem timestamp_fields_recompose :
  forall total_milliseconds : Z,
    total_milliseconds =
      hours_of total_milliseconds * 3600000
      + minutes_of total_milliseconds * 60000
      + secs_of total_milliseconds * 1000
      + milliseconds_of total_milliseconds
    /\ 0 <= minutes_of total_milliseconds < 60
    /\ 0 <= secs_of total_milliseconds < 60
    /\ 0 <= milliseconds_of total_milliseconds < 1000
    /\ (hours_of total_milliseconds < 0 <-> total_milliseconds < 0).
Proof.
  intros t. unfold hours_of, minutes_of, secs_of, milliseconds_of.
  change (3600 * 1000) with 3600000. change (60 * 1000) with 60000.
  Z.div_mod_to_equations. lia.
Qed.

Lemma timestamp_fields_bounds (t : Z) :
  0 <= t < 360000000 ->
  0 <= transcription.hours_of t < 100
  /\ 0 <= transcription.minutes_of t < 60
  /\ 0 <= transcription.secs_of t < 60
  /\ 0 <= transcription.milliseconds_of t < 1000.
Proof.
  intros Ht. unfold hours_of, minutes_of, secs_of, milliseconds_of.
  change (3600 * 1000) with 3600000. change (60 * 1000) with 60000.
  Z.div_mod_to_equations. lia.
Qed.

Lemma milliseconds_recomposed (t : Z) :
  t = transcription.hours_of t * 3600000
      + transcription.minutes_of t * 60000
      + transcription.secs_of t * 1000
      + transcription.milliseconds_of t.
Proof.
  unfold hours_of, minutes_of, secs_of, milliseconds_of.
  change (3600 * 1000) with 3600000. change (60 * 1000) with 60000.
  Z.div_mod_to_equations. lia.
Qed.

Lemma bounded_check (P : nat -> bool) (bound : nat) :
  forallb P (seq 0 bound) = true ->
  forall n : Z, 0 <= n < Z.of_nat bound -> P (Z.to_nat n) = true.
Proof.
  intros Hall n Hn. rewrite forallb_forall in Hall.
  apply Hall, in_seq. lia.
Qed.

Lemma format_d_2_length (n : Z) :
  0 <= n < 100 -> String.length (format_d 2 n) = 2%nat.
Proof.
  intros Hn.
  assert (H := bounded_check
                 (fun k => Nat.eqb (String.length (format_d 2 (Z.of_nat k))) 2)
                 100 ltac:(vm_compute; reflexivity) n Hn).
  cbv beta in H. rewrite Z2Nat.id in H by lia. now apply Nat.eqb_eq.
Qed.

Lemma format_d_3_length (n : Z) :
  0 <= n < 1000 -> String.length (format_d 3 n) = 3%nat.
Proof.
  intros Hn.
  assert (H := bounded_check
                 (fun k => Nat.eqb (String.length (format_d 3 (Z.of_nat k))) 3)
                 1000 ltac:(vm_compute; reflexivity) n Hn).
  cbv beta in H. rewrite Z2Nat.id in H by lia. now apply Nat.eqb_eq.
Qed.

(** X22.  Below one hundred hours and from zero on, a timestamp has the
    fixed width of the subtitle format: twelve characters. *)
Theorem format_timestamp_fixed_width :
  forall (float : Type) (int_times_1000 : float -> Z) (seconds : float),
    0 <= int_times_1000 seconds < 360000000 ->
    String.length (format_timestamp float int_times_1000 seconds) = 12%nat.
Proof.
  intros float int_times_1000 seconds Hrange.
  unfold format_timestamp.
  destruct (timestamp_fields_bounds (int_times_1000 seconds) Hrange)
    as (Hh & Hm & Hs & Hms).
  rewrite !length_append.
  assert (Hm' : 0 <= minutes_of (int_times_1000 seconds) < 100) by lia.
  assert (Hs' : 0 <= secs_of (int_times_1000 seconds) < 100) by lia.
  rewrite (format_d_2_length _ Hh), (format_d_2_length _ Hm'),
    (format_d_2_length _ Hs'), (format_d_3_length _ Hms).
  reflexivity.
Qed.

End TimestampFields.

Section DerivedPaths.

Import qa_reader.
Import transcription.

Lemma format_timestamp_fixed_width_witness :
  String.length (format_timestamp Z (fun ms => ms) 3723004) = 12%nat.
Proof.
  apply (format_timestamp_fixed_width Z (fun ms => ms) 3723004). lia.
Defined.

Lemma replace_fuel_S (fuel : nat) (old new s : string) :
  replace_fuel (S fuel) old new s =
    match cut old s with
    | None => s
    | Some (before, rest) => before ^^ new ^^ replace_fuel fuel old new rest
    end.
Proof. reflexivity. Qed.

Lemma replace_absent (old new s : string) :
  cut old s = None -> replace old new s = s.
Proof.
  intros H. unfold replace.
  destruct (String.length s); simpl; now rewrite H.
Qed.

Lemma cut_mp4_after_stem (stem : string) :
  no_dot stem = true -> cut ".mp4" (stem ^^ ".mp4") = Some (stem, EmptyString).
Proof.
  induction stem as [|c stem IH]; intros Hs.
  - reflexivity.
  - simpl in Hs. apply andb_true_iff in Hs. destruct Hs as [Hc Hs].
    apply negb_true_iff in Hc.
    change (String c stem ^^ ".mp4") with (String c (stem ^^ ".mp4")).
    rewrite cut_cons_miss.
    + now rewrite (IH Hs).
    + rewrite strip_prefix_cons, (Ascii.eqb_sym "." c), Hc. reflexivity.
Qed.

Lemma replace_extension (new stem : string) :
  no_dot stem = true -> replace ".mp4" new (stem ^^ ".mp4") = stem ^^ new.
Proof.
  intros Hs. unfold replace. rewrite length_append.
  replace (String.length stem + String.length ".mp4")%nat
    with (S (String.length stem + 3)) by (simpl; lia).
  rewrite replace_fuel_S, (cut_mp4_after_stem stem Hs).
  destruct (String.length stem + 3)%nat; simpl; now rewrite append_nil_r.
Qed.

(** X23.  For a video path made of a stem without any full stop and the
    extension ".mp4", the three derived paths are the stem followed by
    "_audio.wav", ".srt" and "_with_subtitles.mp4".  When the other
    collaborators answer, the function returns the third path whatever exit
    status the media tool reports, having removed the audio and the subtitle
    file and nothing else. *)
Theorem generate_transcription_paths :
  forall (float : Type) (int_times_1000 : float -> Z)
         (svc : Services float) (stem : string)
         (segments : list (Segment float)) (status : Z) (h : list Action),
    no_dot stem = true ->
    (forall h a b, write_audiofile float svc h a b = Return tt) ->
    (forall h a, transcribe float svc h a = Return segments) ->
    (forall h a b, write_file float svc h a b = Return tt) ->
    (forall h a b c, ffmpeg_subtitles float svc h a b c = Return status) ->
    (forall h a, os_remove float svc h a = Return tt) ->
    generate_transcription float int_times_1000 svc (stem ^^ ".mp4") h =
      (Return (stem ^^ "_with_subtitles.mp4"),
       h ++ [WriteAudio (stem ^^ ".mp4") (stem ^^ "_audio.wav");
             Transcribe (stem ^^ "_audio.wav");
             WriteSrt (stem ^^ ".srt")
               (write_srt float int_times_1000 segments);
             BurnSubtitles (stem ^^ ".mp4") (stem ^^ ".srt")
               (stem ^^ "_with_subtitles.mp4");
             Remove (stem ^^ "_audio.wav");
             Remove (stem ^^ ".srt")]).
Proof.
  intros float int_times_1000 svc stem segments status h
    Hstem Haudio Htr Hwrite Hff Hrm.
  unfold generate_transcription.
  rewrite !(replace_extension _ stem Hstem).
  unfold bind, call. rewrite Haudio, Htr, Hwrite, Hff, !Hrm.
  unfold ret. now rewrite <- !app_assoc.
Qed.

Lemma generate_transcription_paths_witness :
  let svc :=
    mkServices Z (fun _ _ _ => Return tt)
      (fun _ _ => Return [mkSegment Z 0 2500 " Know thyself. "])
      (fun _ _ _ => Return tt)
      (fun _ _ _ _ => Return 1)
      (fun _ _ => Return tt) in
  generate_transcription Z (fun ms => ms) svc
    ("data/videos/combined_7" ^^ ".mp4") [] =
    (Return "data/videos/combined_7_with_subtitles.mp4",
     [WriteAudio "data/videos/combined_7.mp4" "data/videos/combined_7_audio.wav";
      Transcribe "data/videos/combined_7_audio.wav";
      WriteSrt "data/videos/combined_7.srt"
        ("1" ^^ nl ^^ "00:00:00,000 --> 00:00:02,500" ^^ nl
         ^^ "Know thyself." ^^ nl ^^ nl);
      BurnSubtitles "data/videos/combined_7.mp4" "data/videos/combined_7.srt"
        "data/videos/combined_7_with_subtitles.mp4";
      Remove "data/videos/combined_7_audio.wav";
      Remove "data/videos/combined_7.srt"]).
Proof.
  intros svc.
  apply (generate_transcription_paths Z (fun ms => ms) svc
           "data/videos/combined_7"
           [mkSegment Z 0 2500 " Know thyself. "] 1 []);
    reflexivity.
Defined.

(** X24.  For a video path in which ".mp4" does not occur, the three
    derived paths are the video path itself.  Once the audio, the
    transcription and the subtitle file are written and the media tool has
    run, the audio has been written onto the video's own path and the
    clean-up asks to remove that path; if the function returns at all, it
    returns the path it was given. *)
Theorem generate_transcription_without_mp4 :
  forall (float : Type) (int_times_1000 : float -> Z)
         (svc : Services float) (video_path : string)
         (segments : list (Segment float)) (status : Z) (h h' : list Action)
         (res : result string),
    cut ".mp4" video_path = None ->
    (forall h a b, write_audiofile float svc h a b = Return tt) ->
    (forall h a, transcribe float svc h a = Return segments) ->
    (forall h a b, write_file float svc h a b = Return tt) ->
    (forall h a b c, ffmpeg_subtitles float svc h a b c = Return status) ->
    generate_transcription float int_times_1000 svc video_path h = (res, h') ->
    In (WriteAudio video_path video_path) h'
    /\ In (BurnSubtitles video_path video_path video_path) h'
    /\ In (Remove video_path) h'
    /\ (forall output_video : string,
          res = Return output_video -> output_video = video_path).
Proof.
  intros float int_times_1000 svc video_path segments status h h' res
    Habsent Haudio Htr Hwrite Hff Hrun.
  unfold generate_transcription in Hrun.
  rewrite !(replace_absent _ _ video_path Habsent) in Hrun.
  unfold bind, call in Hrun. rewrite Haudio, Htr, Hwrite, Hff in Hrun.
  destruct (os_remove float svc _ video_path) as [[]|e1].
  - destruct (os_remove float svc _ video_path) as [[]|e2];
      inversion Hrun; subst; clear Hrun;
      repeat split;
      try (repeat (apply in_or_app; first [right; now left | left]));
      try (intros out Hout; now inversion Hout).
  - inversion Hrun; subst; clear Hrun.
    repeat split;
      try (repeat (apply in_or_app; first [right; now left | left]));
      try (intros out Hout; now inversion Hout).
Qed.

End DerivedPaths.

Section DerivedPathsMore.

Import qa_reader.
Import transcription.

Lemma generate_transcription_without_mp4_witness :
  let svc :=
    mkServices Z (fun _ _ _ => Return tt)
      (fun _ _ => Return [])
      (fun _ _ _ => Return tt)
      (fun _ _ _ _ => Return 0)
      (fun _ _ => Return tt) in
  In (WriteAudio "clip.mov" "clip.mov")
    (snd (generate_transcription Z (fun ms => ms) svc "clip.mov" []))
  /\ In (BurnSubtitles "clip.mov" "clip.mov" "clip.mov")
       (snd (generate_transcription Z (fun ms => ms) svc "clip.mov" []))
  /\ In (Remove "clip.mov")
       (snd (generate_transcription Z (fun ms => ms) svc "clip.mov" []))
  /\ (forall output_video : string,
        fst (generate_transcription Z (fun ms => ms) svc "clip.mov" [])
          = Return output_video ->
        output_video = "clip.mov").
Proof.
  intros svc.
  apply (generate_transcription_without_mp4 Z (fun ms => ms) svc "clip.mov"
           [] 0 []
           (snd (generate_transcription Z (fun ms => ms) svc "clip.mov" []))
           (fst (generate_transcription Z (fun ms => ms) svc "clip.mov" [])));
    reflexivity.
Defined.

Lemma srt_blocks_app (float : Type) (int_times_1000 : float -> Z)
    (before after : list (Segment float)) :
  forall i : Z,
    srt_blocks float int_times_1000 i (before ++ after) =
      srt_blocks float int_times_1000 i before
      ^^ srt_blocks float int_times_1000 (i + len before) after.
Proof.
  induction before as [|s before IH]; intros i.
  - simpl. unfold len. simpl. now rewrite Z.add_0_r.
  - cbn [app srt_blocks]. rewrite IH, !append_assoc.
    replace (i + 1 + len before) with (i + len (s :: before))
      by (unfold len; cbn [List.length]; lia).
    reflexivity.
Qed.

(** X25.  The subtitle file numbers its blocks in segment order from 1:
    the segment that follows [k] others is written after their blocks as
    block [k + 1], with its two timestamps, its text without the
    whitespace around it and a blank line. *)
Theorem write_srt_numbers_blocks :
  forall (float : Type) (int_times_1000 : float -> Z)
         (before : list (Segment float)) (segment : Segment float)
         (after : list (Segment float)),
    write_srt float int_times_1000 (before ++ segment :: after) =
      write_srt float int_times_1000 before
      ^^ (str_int (len before + 1) ^^ nl)
      ^^ (format_timestamp float int_times_1000 (seg_start float segment)
          ^^ " --> "
          ^^ format_timestamp float int_times_1000 (seg_end float segment)
          ^^ nl)
      ^^ (strip (seg_text float segment) ^^ nl ^^ nl)
      ^^ srt_blocks float int_times_1000 (len before + 1) after.
Proof.
  intros float int_times_1000 before segment after.
  unfold write_srt. rewrite srt_blocks_app. reflexivity.
Qed.

End DerivedPathsMore.

(* ================================================================= *)
(** ** text_to_image.py and talking_head.py: three attempts *)

Section ThreeAttempts.

Import replicate_calls.

Context {A : Type}.
Variable body : M World A.
Variable outcome : nat -> result A.
Variable failure : exn.
Variable wait : Z.

Hypothesis body_runs_once :
  forall w : World,
    body w = (outcome (runs w), mkWorld (S (runs w)) (waited w)).

Hypothesis one_failure :
  forall (n : nat) (e : exn), outcome n = Raise e -> e = failure.

Lemma retry_reraise_three :
  forall (w w' : World) (res : result A),
    retry_reraise 3 wait body w = (res, w') ->
    (exists (j : nat) (a : A),
       (j < 3)%nat
       /\ (forall i : nat,
             (i < j)%nat -> outcome (runs w + i) = Raise failure)
       /\ outcome (runs w + j) = Return a
       /\ res = Return a
       /\ runs w' = (runs w + S j)%nat
       /\ waited w' = waited w + Z.of_nat j * wait)
    \/ ((forall i : nat,
           (i < 3)%nat -> outcome (runs w + i) = Raise failure)
        /\ res = Raise failure
        /\ runs w' = (runs w + 3)%nat
        /\ waited w' = waited w + 2 * wait).
Proof.
  intros w w' res Hrun.
  cbn [retry_reraise] in Hrun. unfold try_except in Hrun.
  rewrite body_runs_once in Hrun.
  destruct (outcome (runs w)) as [a0|e0] eqn:H0.
  { inversion Hrun; subst. left. exists 0%nat, a0.
    rewrite Nat.add_0_r. cbn [runs waited].
    repeat split; try lia; try assumption. }
  apply one_failure in H0 as He0. subst e0.
  unfold bind, sleep in Hrun. cbn [runs waited] in Hrun.
  rewrite body_runs_once in Hrun. cbn [runs waited] in Hrun.
  destruct (outcome (S (runs w))) as [a1|e1] eqn:H1.
  { inversion Hrun; subst. left. exists 1%nat, a1.
    rewrite Nat.add_1_r. cbn [runs waited].
    repeat split; try lia; try assumption.
    intros i Hi. replace i with 0%nat by lia. now rewrite Nat.add_0_r. }
  apply one_failure in H1 as He1. subst e1.
  rewrite body_runs_once in Hrun. cbn [runs waited] in Hrun.
  destruct (outcome (S (S (runs w)))) as [a2|e2] eqn:H2.
  { inversion Hrun; subst. left. exists 2%nat, a2.
    replace (runs w + 2)%nat with (S (S (runs w))) by lia. cbn [runs waited].
    repeat split; try lia; try assumption.
    intros i Hi. destruct i as [|[|i]]; try lia.
    - now rewrite Nat.add_0_r.
    - now rewrite Nat.add_1_r. }
  apply one_failure in H2 as He2. subst e2.
  inversion Hrun; subst. right. cbn [runs waited].
  repeat split; try lia.
  intros i Hi. destruct i as [|[|[|i]]]; try lia.
  - now rewrite Nat.add_0_r.
  - now rewrite Nat.add_1_r.
  - now replace (runs w + 2)%nat with (S (S (runs w))) by lia.
Qed.

End ThreeAttempts.

Section ReplicateWrappers.

Import replicate_calls.

Lemma generate_image_once_outcome
    (answer : nat -> string -> result (list string)) (prompt : string)
    (w : World) :
  generate_image_once answer prompt w =
    (match answer (runs w) prompt with
     | Return (image_url :: _) => Return image_url
     | _ => Raise image_failure
     end,
     mkWorld (S (runs w)) (waited w)).
Proof.
  unfold generate_image_once, try_except, bind, run.
  destruct (answer (runs w) prompt) as [[|url others]|e]; reflexivity.
Qed.

(** X26.  [generate_image] makes at most three runs of the image model, one
    second apart.  It returns the first output of the first run that
    answers with a non-empty output.  When all three runs raise or answer
    with nothing, it raises "Failed to generate image using Replicate.";
    the exception of the model itself is never the one that is raised. *)
Theorem generate_image_outcomes :
  forall (answer : nat -> string -> result (list string)) (prompt : string)
         (w w' : World) (res : result string),
    generate_image answer prompt w = (res, w') ->
    (exists (j : nat) (image_url : string) (others : list string),
       (j < 3)%nat
       /\ (forall i : nat,
             (i < j)%nat -> no_image (answer (runs w + i)%nat prompt) = true)
       /\ answer (runs w + j)%nat prompt = Return (image_url :: others)
       /\ res = Return image_url
       /\ runs w' = (runs w + S j)%nat
       /\ waited w' = waited w + Z.of_nat j)
    \/ ((forall i : nat,
           (i < 3)%nat -> no_image (answer (runs w + i)%nat prompt) = true)
        /\ res = Raise image_failure
        /\ runs w' = (runs w + 3)%nat
        /\ waited w' = waited w + 2).
Proof.
  intros answer prompt w w' res Hrun.
  set (outcome := fun n : nat =>
         match answer n prompt with
         | Return (image_url :: _) => Return image_url
         | _ => Raise image_failure
         end).
  assert (Hfail : forall n, outcome n = Raise image_failure ->
                            no_image (answer n prompt) = true).
  { intros n. unfold outcome.
    destruct (answer n prompt) as [[|url others]|e]; simpl;
      intros H; congruence. }
  assert (Hone : forall n e, outcome n = Raise e -> e = image_failure).
  { intros n e. unfold outcome.
    destruct (answer n prompt) as [[|url others]|e0]; congruence. }
  destruct (retry_reraise_three (generate_image_once answer prompt) outcome
              image_failure 1
              (generate_image_once_outcome answer prompt) Hone w w' res Hrun)
    as [(j & a & Hj & Hbefore & Hj_ok & Hres & Hruns & Hwait)
       |(Hall & Hres & Hruns & Hwait)].
  - left. unfold outcome in Hj_ok.
    destruct (answer (runs w + j)%nat prompt) as [[|url others]|e] eqn:Hans;
      try discriminate.
    inversion Hj_ok; subst a. exists j, url, others.
    repeat split; try assumption; try lia.
    intros i Hi. apply Hfail, Hbefore, Hi.
  - right. repeat split; try assumption; try lia.
    intros i Hi. apply Hfail, Hall, Hi.
Qed.

Lemma generate_image_outcomes_witness :
  let answer : nat -> string -> result (list string) :=
    fun n _ =>
      match n with
      | O => Raise (mkExn (OtherError "ModelError") "cold start")
      | S O => Return []
      | _ => Return ["https://replicate.example/out-0.png"; "spare"]
      end in
  (exists (j : nat) (image_url : string) (others : list string),
     (j < 3)%nat
     /\ (forall i : nat,
           (i < j)%nat -> no_image (answer (0 + i)%nat "an agora") = true)
     /\ answer (0 + j)%nat "an agora" = Return (image_url :: others)
     /\ Return "https://replicate.example/out-0.png" = Return image_url
     /\ 3%nat = (0 + S j)%nat
     /\ 2 = 0 + Z.of_nat j)
  \/ ((forall i : nat,
         (i < 3)%nat -> no_image (answer (0 + i)%nat "an agora") = true)
      /\ Return "https://replicate.example/out-0.png" = Raise image_failure
      /\ 3%nat = (0 + 3)%nat
      /\ 2 = 0 + 2).
Proof.
  intros answer.
  apply (generate_image_outcomes answer "an agora" (mkWorld 0 0)
           (mkWorld 3 2) (Return "https://replicate.example/out-0.png")).
  reflexivity.
Defined.

Lemma talking_head_once_outcome {D : Type}
    (answer : nat -> RetalkingInput D -> result string)
    (input_audio : string) (audio_duration : D) (w : World) :
  talking_head_once answer input_audio audio_duration w =
    (match answer (runs w)
             (mkRetalkingInput face_url input_audio audio_duration) with
     | Return output => if truthy output then Return output
                        else Raise video_failure
     | Raise _ => Raise video_failure
     end,
     mkWorld (S (runs w)) (waited w)).
Proof.
  unfold talking_head_once, try_except, bind, run.
  destruct (answer (runs w) _) as [[|c output]|e]; reflexivity.
Qed.

(** X27.  [talking_head] makes at most three runs of the lip-sync model,
    one second apart, each with the fixed face video, the given audio and
    the given duration.  It returns the output of the first run that
    answers with a non-empty output.  When all three runs raise or answer
    with nothing, it raises "Failed to generate video using Replicate.". *)
Theorem talking_head_outcomes :
  forall (D : Type) (answer : nat -> RetalkingInput D -> result string)
         (input_audio : string) (audio_duration : D)
         (w w' : World) (res : result string),
    talking_head answer input_audio audio_duration w = (res, w') ->
    let input := mkRetalkingInput face_url input_audio audio_duration in
    (exists (j : nat) (output : string),
       (j < 3)%nat
       /\ (forall i : nat,
             (i < j)%nat -> no_video (answer (runs w + i)%nat input) = true)
       /\ answer (runs w + j)%nat input = Return output
       /\ output <> EmptyString
       /\ res = Return output
       /\ runs w' = (runs w + S j)%nat
       /\ waited w' = waited w + Z.of_nat j)
    \/ ((forall i : nat,
           (i < 3)%nat -> no_video (answer (runs w + i)%nat input) = true)
        /\ res = Raise video_failure
        /\ runs w' = (runs w + 3)%nat
        /\ waited w' = waited w + 2).
Proof.
  intros D answer input_audio audio_duration w w' res Hrun input.
  set (outcome := fun n : nat =>
         match answer n input with
         | Return output => if truthy output then Return output
                            else Raise video_failure
         | Raise _ => Raise video_failure
         end).
  assert (Hfail : forall n, outcome n = Raise video_failure ->
                            no_video (answer n input) = true).
  { intros n. unfold outcome.
    destruct (answer n input) as [[|c output]|e]; simpl;
      intros H; congruence. }
  assert (Hone : forall n e, outcome n = Raise e -> e = video_failure).
  { intros n e. unfold outcome.
    destruct (answer n input) as [[|c output]|e0]; simpl; congruence. }
  destruct (retry_reraise_three
              (talking_head_once answer input_audio audio_duration) outcome
              video_failure 1
              (talking_head_once_outcome answer input_audio audio_duration)
              Hone w w' res Hrun)
    as [(j & a & Hj & Hbefore & Hj_ok & Hres & Hruns & Hwait)
       |(Hall & Hres & Hruns & Hwait)].
  - left. unfold outcome in Hj_ok.
    destruct (answer (runs w + j)%nat input) as [[|c output]|e] eqn:Hans;
      try discriminate.
    simpl in Hj_ok. inversion Hj_ok; subst a.
    exists j, (String c output).
    repeat split; try assumption; try lia; try discriminate.
    intros i Hi. apply Hfail, Hbefore, Hi.
  - right. repeat split; try assumption; try lia.
    intros i Hi. apply Hfail, Hall, Hi.
Qed.

Lemma talking_head_outcomes_witness :
  let answer : nat -> RetalkingInput Q -> result string :=
    fun _ _ => Return EmptyString in
  let input := mkRetalkingInput face_url "https://r2.example/a.mp3" (7 # 2)%Q in
  (exists (j : nat) (output : string),
     (j < 3)%nat
     /\ (forall i : nat,
           (i < j)%nat -> no_video (answer (0 + i)%nat input) = true)
     /\ answer (0 + j)%nat input = Return output
     /\ output <> EmptyString
     /\ Raise video_failure = Return output
     /\ 3%nat = (0 + S j)%nat
     /\ 2 = 0 + Z.of_nat j)
  \/ ((forall i : nat,
         (i < 3)%nat -> no_video (answer (0 + i)%nat input) = true)
      /\ @Raise string video_failure = Raise video_failure
      /\ 3%nat = (0 + 3)%nat
      /\ 2 = 0 + 2).
Proof.
  intros answer input.
  apply (talking_head_outcomes Q answer "https://r2.example/a.mp3" (7 # 2)%Q
           (mkWorld 0 0) (mkWorld 3 2) (Raise video_failure)).
  reflexivity.
Defined.

End ReplicateWrappers.

(* ================================================================= *)
(** ** text_to_audio.py: building the speech model *)

Section SpeechModel.

Import text_to_audio.

(** X28.  What [ElevenLabsTTSModel.__init__] checks, in order:
    - without a non-empty key, given or in the environment, it raises
      "ELEVENLABS_API_KEY is not set", whatever the storage settings are;
    - with a key but with one of the five storage settings unset or empty,
      it raises "R2 configuration is incomplete" and the storage client is
      not built;
    - otherwise, once the storage client is built, the model holds the
      given key when it is non-empty and the environment's key when it is
      not, with the fixed model "eleven_multilingual_v2" and voice
      "Daniel". *)
Theorem new_ElevenLabsTTSModel_checks :
  forall (getenv : Environ) (storage_client : result unit)
         (key : option string),
    let env_key := getenv "ELEVENLABS_API_KEY" in
    let settings :=
      [getenv "R2_ACCOUNT_ID"; getenv "R2_ACCESS_KEY_ID";
       getenv "R2_SECRET_ACCESS_KEY"; getenv "R2_BUCKET_NAME";
       getenv "R2_PUBLIC_BUCKET_URL"] in
    (set key = false -> set env_key = false ->
     new_ElevenLabsTTSModel getenv storage_client key =
       Raise (mkExn ValueError "ELEVENLABS_API_KEY is not set"))
    /\ (set key || set env_key = true ->
        (exists x, In x settings /\ set x = false) ->
        new_ElevenLabsTTSModel getenv storage_client key =
          Raise (mkExn ValueError "R2 configuration is incomplete"))
    /\ (set key || set env_key = true ->
        (forall x, In x settings -> set x = true) ->
        storage_client = Return tt ->
        exists m : ElevenLabsTTSModel,
          new_ElevenLabsTTSModel getenv storage_client key = Return m
          /\ api_key m = (if set key then key else env_key)
          /\ model m = "eleven_multilingual_v2"
          /\ voice m = "Daniel"
          /\ bucket_name m = getenv "R2_BUCKET_NAME"
          /\ public_bucket_url m = getenv "R2_PUBLIC_BUCKET_URL").
Proof.
  intros getenv storage_client key env_key settings.
  assert (Hkey : set (or_else key env_key) = set key || set env_key).
  { unfold or_else. destruct (set key) eqn:Hk; [exact Hk | reflexivity]. }
  unfold new_ElevenLabsTTSModel. fold env_key. fold settings.
  rewrite Hkey. split; [|split].
  - intros -> ->. reflexivity.
  - intros -> (x & Hin & Hx). cbn [negb].
    assert (Hall : all settings = false).
    { unfold all. apply not_true_is_false. intros Hall.
      rewrite forallb_forall in Hall. rewrite (Hall x Hin) in Hx.
      discriminate. }
    now rewrite Hall.
  - intros -> Hall ->. cbn [negb].
    assert (Hall' : all settings = true)
      by (unfold all; now apply forallb_forall).
    rewrite Hall'. cbn [negb]. eexists. split; [reflexivity|].
    repeat split.
Qed.

Lemma new_ElevenLabsTTSModel_checks_witness :
  let getenv : Environ :=
    fun name =>
      if String.eqb name "ELEVENLABS_API_KEY" then Some "env-key"
      else if String.eqb name "R2_BUCKET_NAME" then Some ""
      else Some "x" in
  new_ElevenLabsTTSModel (fun _ => None) (Return tt) (Some "") =
    Raise (mkExn ValueError "ELEVENLABS_API_KEY is not set")
  /\ new_ElevenLabsTTSModel getenv (Return tt) None =
       Raise (mkExn ValueError "R2 configuration is incomplete")
  /\ exists m : ElevenLabsTTSModel,
       new_ElevenLabsTTSModel (fun _ => Some "x") (Return tt) (Some "given")
         = Return m
       /\ api_key m = (if set (Some "given") then Some "given" else Some "x")
       /\ model m = "eleven_multilingual_v2"
       /\ voice m = "Daniel"
       /\ bucket_name m = Some "x"
       /\ public_bucket_url m = Some "x".
Proof.
  intros getenv. split; [|split].
  - apply (proj1 (new_ElevenLabsTTSModel_checks (fun _ => None) (Return tt)
                    (Some ""))); reflexivity.
  - apply (proj1 (proj2 (new_ElevenLabsTTSModel_checks getenv (Return tt)
                           None))); [reflexivity|].
    exists (Some ""). split; [|reflexivity].
    right; right; right; left. reflexivity.
  - apply (proj2 (proj2 (new_ElevenLabsTTSModel_checks (fun _ => Some "x")
                           (Return tt) (Some "given"))));
      [reflexivity | | reflexivity].
    intros x Hin. simpl in Hin.
    repeat (destruct Hin as [<-|Hin]; [reflexivity|]). contradiction.
Defined.

End SpeechModel.

(* ================================================================= *)
(** ** transcription.py: timestamps tell the milliseconds apart *)

Section TimestampsDistinct.

Import transcription.

Lemma append_same_length_inj (a a' b b' : string) :
  String.length a = String.length a' ->
  a ^^ b = a' ^^ b' -> a = a' /\ b = b'.
Proof.
  revert a'. induction a as [|c a IH]; intros [|c' a'] Hlen Heq;
    try discriminate.
  - now split.
  - simpl in Hlen, Heq. inversion Heq; subst.
    destruct (IH a') as [-> ->]; [lia | assumption | now split].
Qed.

Lemma format_d_2_value (n : Z) :
  0 <= n < 100 -> digits_value 0 (format_d 2 n) = n.
Proof.
  intros Hn.
  assert (H := bounded_check
                 (fun k => Z.eqb (digits_value 0 (format_d 2 (Z.of_nat k)))
                             (Z.of_nat k))
                 100 ltac:(vm_compute; reflexivity) n Hn).
  cbv beta in H. rewrite Z2Nat.id in H by lia. now apply Z.eqb_eq.
Qed.

Lemma format_d_3_value (n : Z) :
  0 <= n < 1000 -> digits_value 0 (format_d 3 n) = n.
Proof.
  intros Hn.
  assert (H := bounded_check
                 (fun k => Z.eqb (digits_value 0 (format_d 3 (Z.of_nat k)))
                             (Z.of_nat k))
                 1000 ltac:(vm_compute; reflexivity) n Hn).
  cbv beta in H. rewrite Z2Nat.id in H by lia. now apply Z.eqb_eq.
Qed.

(** X29.  From zero on and below one hundred hours, two moments get the
    same timestamp only when they have the same number of milliseconds. *)
Theorem format_timestamp_injective :
  forall (float : Type) (int_times_1000 : float -> Z) (s t : float),
    0 <= int_times_1000 s < 360000000 ->
    0 <= int_times_1000 t < 360000000 ->
    format_timestamp float int_times_1000 s
      = format_timestamp float int_times_1000 t ->
    int_times_1000 s = int_times_1000 t.
Proof.
  intros float int_times_1000 s t Hs Ht Heq.
  unfold format_timestamp in Heq.
  destruct (timestamp_fields_bounds _ Hs) as (Hh & Hm & Hsec & Hms).
  destruct (timestamp_fields_bounds _ Ht) as (Hh' & Hm' & Hsec' & Hms').
  assert (Hm2 : 0 <= minutes_of (int_times_1000 s) < 100) by lia.
  assert (Hm2' : 0 <= minutes_of (int_times_1000 t) < 100) by lia.
  assert (Hs2 : 0 <= secs_of (int_times_1000 s) < 100) by lia.
  assert (Hs2' : 0 <= secs_of (int_times_1000 t) < 100) by lia.
  apply append_same_length_inj in Heq;
    [|now rewrite !format_d_2_length by assumption].
  destruct Heq as [Ehours Heq]. inversion Heq as [Heq1]; clear Heq.
  apply append_same_length_inj in Heq1;
    [|now rewrite !format_d_2_length by assumption].
  destruct Heq1 as [Eminutes Heq]. inversion Heq as [Heq1]; clear Heq.
  apply append_same_length_inj in Heq1;
    [|now rewrite !format_d_2_length by assumption].
  destruct Heq1 as [Esecs Heq]. inversion Heq as [Emillis]; clear Heq.
  apply (f_equal (digits_value 0)) in Ehours, Eminutes, Esecs, Emillis.
  rewrite !format_d_2_value in Ehours, Eminutes, Esecs by assumption.
  rewrite !format_d_3_value in Emillis by assumption.
  pose proof (milliseconds_recomposed (int_times_1000 s)) as Rs.
  pose proof (milliseconds_recomposed (int_times_1000 t)) as Rt.
  lia.
Qed.

Lemma format_timestamp_injective_witness :
  let halves : nat -> Z := fun n => Z.of_nat (Nat.div2 n) in
  halves 3000%nat = halves 3001%nat.
Proof.
  intros halves.
  apply (format_timestamp_injective nat halves 3000%nat 3001%nat);
    [vm_compute; split; [discriminate | reflexivity]
    | vm_compute; split; [discriminate | reflexivity]
    | reflexivity].
Defined.

End TimestampsDistinct.
